(** * The agent registry of the refactoring swarm

    A shallow embedding of [src/agent_registry.py]: the class
    [AgentRegistry] (a name-to-agent dictionary and an initialisation flag),
    its methods, and the module-level singleton accessor [get_registry] with
    the three convenience functions built on it.

    Python objects are modelled as follows.
    - The methods of [AgentRegistry] run in a state-and-exception monad whose
      state is the receiver [self] together with the observable effects of the
      process (console output, structured log, constructor invocations, and
      the counter from which fresh object identities are drawn).  A raised
      exception keeps the state reached so far: Python performs no rollback.
    - [self._agents] is an insertion-ordered dictionary, an association list
      in which assigning to an existing key keeps its position.
    - The environment variable and the three agent constructors are outside
      the repository; every [initialize] call receives them as an [Env].
    - Registries live in a heap indexed by location, so that the module
      global [_registry_instance] holds a reference and identity of
      registries is equality of locations. *)

From stdpp Require Import base list strings.
From Stdlib Require Import String Ascii DecimalString Lia.

Open Scope string_scope.

(** ** Strings *)

(** [str.lower()] on the ASCII range: [A]..[Z] are mapped to [a]..[z], every
    other byte is kept.  Strings are byte strings here; the further case
    mappings Python applies to non-ASCII code points are outside the model. *)
Definition lower_ascii (c : ascii) : ascii :=
  let n := nat_of_ascii c in
  if (65 <=? n)%nat && (n <=? 90)%nat then ascii_of_nat (n + 32) else c.

Fixpoint lower (s : string) : string :=
  match s with
  | EmptyString => EmptyString
  | String c s' => String (lower_ascii c) (lower s')
  end.

(** [str(n)] for a non-negative integer. *)
Definition str_of_nat (n : nat) : string :=
  NilZero.string_of_uint (Nat.to_uint n).

(** [repr] of a string without quotes, backslashes or control characters
    (the three dictionary keys are such strings). *)
Definition repr_str (s : string) : string := "'" ++ s ++ "'".

(** [str] of a list of strings, as an f-string renders it. *)
Definition str_of_list (l : list string) : string :=
  "[" ++ String.concat ", " (map repr_str l) ++ "]".

(** ** Exceptions *)

(** An exception object: its class name, [str(e)], and whether the class
    derives from [Exception] (a [KeyboardInterrupt] or [SystemExit] raised by
    a constructor does not, and is not caught by [except Exception]). *)
Record exn := mk_exn {
  exn_type : string;
  exn_str : string;
  exn_is_Exception : bool
}.

Definition ValueError (msg : string) : exn := mk_exn "ValueError" msg true.
Definition RuntimeError (msg : string) : exn := mk_exn "RuntimeError" msg true.

(** The outcome of a call: a returned value or a raised exception. *)
Inductive Result (A : Type) : Type :=
| Ok (a : A)
| Raise (e : exn).
Arguments Ok {A} a.
Arguments Raise {A} e.

(** ** Agents and the dictionary *)

Inductive AgentKind := Auditor | Fixer | Judge.

(** An agent instance is opaque to the registry: only its class and its
    identity matter. *)
Record Agent := mk_agent {
  agent_kind : AgentKind;
  agent_oid : nat
}.

(** A [dict] with string keys, in insertion order. *)
Definition dict := list (string * Agent).

Fixpoint dict_get (k : string) (d : dict) : option Agent :=
  match d with
  | [] => None
  | (k', v) :: d' => if String.eqb k k' then Some v else dict_get k d'
  end.

(** [d[k] = v]: an existing key keeps its place, a new key goes last. *)
Fixpoint dict_set (k : string) (v : Agent) (d : dict) : dict :=
  match d with
  | [] => [(k, v)]
  | (k', v') :: d' =>
      if String.eqb k k' then (k, v) :: d' else (k', v') :: dict_set k v d'
  end.

Definition dict_keys (d : dict) : list string := map fst d.

Definition dict_clear (d : dict) : dict := [].

(** ** The logging collaborator *)

(** Modelled from the spec: the enumeration [ActionType] of
    [src/utils/logger.py] is not part of the sources at hand; the two tags
    the registry uses are the "analysis" and "debug" kinds. *)
Inductive ActionType := ANALYSIS | DEBUG.

Record LogEntry := mk_log {
  log_agent_name : string;
  log_model_used : string;
  log_action : ActionType;
  log_details : list (string * string)
}.

(** ** Effects and state *)

(** What the process does that an observer can see, in order. *)
Inductive Event :=
| EPrint (line : string)
| ELog (entry : LogEntry)
| EConstruct (k : AgentKind).

Record Sys := mk_sys {
  next_oid : nat;
  trace : list Event
}.

Record Registry := mk_registry {
  _agents : dict;
  _initialized : bool
}.

Definition State : Type := Registry * Sys.

Definition M (A : Type) : Type := State -> Result A * State.

#[global] Instance M_ret : MRet M := fun A a st => (Ok a, st).

#[global] Instance M_bind : MBind M := fun A B f m st =>
  match m st with
  | (Ok a, st') => f a st'
  | (Raise e, st') => (Raise e, st')
  end.

#[global] Instance M_fmap : FMap M := fun A B f m st =>
  match m st with
  | (Ok a, st') => (Ok (f a), st')
  | (Raise e, st') => (Raise e, st')
  end.

Definition raise {A} (e : exn) : M A := fun st => (Raise e, st).

(** [try: body except Exception as e: handler e].  The handler runs in the
    state the body left behind. *)
Definition try_except_Exception {A} (body : M A) (handler : exn -> M A) : M A :=
  fun st =>
    match body st with
    | (Ok a, st') => (Ok a, st')
    | (Raise e, st') =>
        if exn_is_Exception e then handler e st' else (Raise e, st')
    end.

Definition emit (ev : Event) : M unit := fun '(r, s) =>
  (Ok tt, (r, mk_sys (next_oid s) (trace s ++ [ev]))).

Definition print (line : string) : M unit := emit (EPrint line).

(** Modelled from the spec: [log_experiment] of [src/utils/logger.py] is not
    part of the sources at hand.  It accepts a record of component name,
    model identifier, action kind and details; the registry never reads the
    log back, so the call is the recording of that entry. *)
Definition log_experiment (agent_name model_used : string)
    (action : ActionType) (details : list (string * string)) : M unit :=
  emit (ELog (mk_log agent_name model_used action details)).

Definition read_agents : M dict := fun '(r, s) => (Ok (_agents r), (r, s)).

Definition read_initialized : M bool := fun '(r, s) =>
  (Ok (_initialized r), (r, s)).

Definition write_agents (d : dict) : M unit := fun '(r, s) =>
  (Ok tt, (mk_registry d (_initialized r), s)).

Definition write_initialized (b : bool) : M unit := fun '(r, s) =>
  (Ok tt, (mk_registry (_agents r) b, s)).

(** ** The outside world of one [initialize] call *)

(** [os.getenv("GOOGLE_API_KEY")] and, for each agent class, whether its
    constructor raises ([Some e]) or returns a new instance ([None]). *)
Record Env := mk_env {
  GOOGLE_API_KEY : option string;
  ctor_raises : AgentKind -> option exn
}.

(** Python truthiness of [os.getenv(...)]: [None] and the empty string are
    false. *)
Definition truthy (v : option string) : bool :=
  match v with
  | None => false
  | Some s => negb (String.eqb s "")
  end.

(** [AuditorAgent()], [FixerAgent()], [JudgeAgent()]: the call is recorded,
    then it raises or yields an instance with a fresh identity. *)
Definition construct (env : Env) (k : AgentKind) : M Agent :=
  emit (EConstruct k) ;;
  match ctor_raises env k with
  | Some e => raise e
  | None => fun '(r, s) =>
      (Ok (mk_agent k (next_oid s)), (r, mk_sys (S (next_oid s)) (trace s)))
  end.

(** ** class AgentRegistry *)

(** [__init__] *)
Definition AgentRegistry__init__ : Registry := mk_registry [] false.

(** [self._agents[k] = ctor()]: the constructor runs first, the store
    follows only if it returned. *)
Definition load (env : Env) (key : string) (k : AgentKind) : M unit :=
  a ← construct env k;
  d ← read_agents;
  write_agents (dict_set key a d).

Definition initialize (env : Env) : M unit :=
  init ← read_initialized;
  if (init : bool) then
    print "⚠️  Agent registry already initialized"
  else
    print "🔧 Initializing Agent Registry..." ;;
    try_except_Exception
      (let api_key := GOOGLE_API_KEY env in
       (if negb (truthy api_key)
        then raise (ValueError "GOOGLE_API_KEY not found in environment variables")
        else mret tt) ;;
       print "  📋 Loading Auditor Agent..." ;;
       load env "auditor" Auditor ;;
       print "  🔧 Loading Fixer Agent..." ;;
       load env "fixer" Fixer ;;
       print "  ⚖️  Loading Judge Agent..." ;;
       load env "judge" Judge ;;
       write_initialized true ;;
       d ← read_agents;
       print ("✅ Agent Registry initialized with "
              ++ str_of_nat (List.length (d : dict)) ++ " agents") ;;
       d ← read_agents;
       log_experiment "AgentRegistry" "N/A" ANALYSIS
         [("input_prompt", "Agent registry initialization");
          ("output_response",
           "Successfully loaded " ++ str_of_nat (List.length (d : dict)) ++ " agents: "
           ++ str_of_list (dict_keys d))])
      (fun e =>
         print ("❌ Error initializing agent registry: " ++ exn_str e) ;;
         log_experiment "AgentRegistry" "N/A" DEBUG
           [("input_prompt", "Agent registry initialization");
            ("output_response", "Failed to initialize: " ++ exn_str e)] ;;
         raise e).

Definition get_agent (agent_name : string) : M (option Agent) :=
  init ← read_initialized;
  if negb (init : bool) then
    raise (RuntimeError "Agent registry not initialized. Call initialize() first.")
  else
    d ← read_agents;
    let agent := dict_get (lower agent_name) (d : dict) in
    match agent with
    | None =>
        print ("⚠️  Agent '" ++ agent_name ++ "' not found in registry") ;;
        d ← read_agents;
        print ("   Available agents: " ++ str_of_list (dict_keys (d : dict)))
    | Some _ => mret tt
    end ;;
    mret agent.

Definition get_auditor : M (option Agent) := get_agent "auditor".
Definition get_fixer : M (option Agent) := get_agent "fixer".
Definition get_judge : M (option Agent) := get_agent "judge".

Definition list_agents : M (list string) :=
  d ← read_agents; mret (dict_keys d).

Definition is_initialized : M bool := read_initialized.

Definition shutdown : M unit :=
  init ← read_initialized;
  if negb (init : bool) then
    mret tt
  else
    print "🛑 Shutting down Agent Registry..." ;;
    d ← read_agents;
    write_agents (dict_clear d) ;;
    write_initialized false ;;
    print "✅ Agent Registry shutdown complete" ;;
    log_experiment "AgentRegistry" "N/A" ANALYSIS
      [("input_prompt", "Agent registry shutdown");
       ("output_response", "All agents released and registry cleared")].

(** ** Calls on one registry *)

(** The public methods as a caller invokes them, one after the other; a
    caller that catches an exception goes on with the registry as the failed
    call left it. *)
Inductive Call :=
| CInitialize (env : Env)
| CGetAgent (agent_name : string)
| CGetAuditor
| CGetFixer
| CGetJudge
| CListAgents
| CIsInitialized
| CShutdown.

(** Python values the methods return. *)
Inductive Value :=
| VNone
| VAgent (a : Agent)
| VList (names : list string)
| VBool (b : bool).

Definition value_of_lookup (o : option Agent) : Value :=
  match o with
  | Some a => VAgent a
  | None => VNone
  end.

Definition call (c : Call) : M Value :=
  match c with
  | CInitialize env => initialize env ;; mret VNone
  | CGetAgent agent_name => value_of_lookup <$> get_agent agent_name
  | CGetAuditor => value_of_lookup <$> get_auditor
  | CGetFixer => value_of_lookup <$> get_fixer
  | CGetJudge => value_of_lookup <$> get_judge
  | CListAgents => VList <$> list_agents
  | CIsInitialized => VBool <$> is_initialized
  | CShutdown => shutdown ;; mret VNone
  end.

Fixpoint run (cs : list Call) (st : State) : State :=
  match cs with
  | [] => st
  | c :: cs' => run cs' (snd (call c st))
  end.

(** ** The module: heap of registries and the global instance *)

Definition loc := nat.

Record World := mk_world {
  heap : list Registry;
  _registry_instance : option loc;
  sys : Sys
}.

(** The module right after import. *)
Definition module_loaded (s : Sys) : World := mk_world [] None s.

(** [AgentRegistry()]: a new object at a fresh location. *)
Definition new_AgentRegistry (w : World) : loc * World :=
  (List.length (heap w),
   mk_world (heap w ++ [AgentRegistry__init__])%list (_registry_instance w) (sys w)).

Definition get_registry (w : World) : loc * World :=
  match _registry_instance w with
  | None =>
      let '(l, w') := new_AgentRegistry w in
      (l, mk_world (heap w') (Some l) (sys w'))
  | Some l => (l, w)
  end.

(** A method call through a reference.  [None] when the reference dangles,
    which no Python program can produce. *)
Definition invoke {A} (l : loc) (m : M A) (w : World)
    : option (Result A) * World :=
  match heap w !! l with
  | None => (None, w)
  | Some r =>
      let '(res, (r', s')) := m (r, sys w) in
      (Some res, mk_world (<[l := r']> (heap w)) (_registry_instance w) s')
  end.

Definition get_auditor_agent (w : World) : option (Result (option Agent)) * World :=
  let '(l, w') := get_registry w in invoke l get_auditor w'.

Definition get_fixer_agent (w : World) : option (Result (option Agent)) * World :=
  let '(l, w') := get_registry w in invoke l get_fixer w'.

Definition get_judge_agent (w : World) : option (Result (option Agent)) * World :=
  let '(l, w') := get_registry w in invoke l get_judge w'.

(** What client code can do with the module. *)
Inductive Stmt :=
| SNew
| SGetRegistry
| SMethod (l : loc) (c : Call)
| SGetAuditorAgent
| SGetFixerAgent
| SGetJudgeAgent.

Definition exec (st : Stmt) (w : World) : World :=
  match st with
  | SNew => snd (new_AgentRegistry w)
  | SGetRegistry => snd (get_registry w)
  | SMethod l c => snd (invoke l (call c) w)
  | SGetAuditorAgent => snd (get_auditor_agent w)
  | SGetFixerAgent => snd (get_fixer_agent w)
  | SGetJudgeAgent => snd (get_judge_agent w)
  end.

Fixpoint exec_all (p : list Stmt) (w : World) : World :=
  match p with
  | [] => w
  | st :: p' => exec_all p' (exec st w)
  end.

(** ** Vocabulary of the statements *)

(** The events of a failed attempt that the handler adds. *)
Definition failure_events (e : exn) : list Event :=
  [EPrint ("❌ Error initializing agent registry: " ++ exn_str e);
   ELog (mk_log "AgentRegistry" "N/A" DEBUG
           [("input_prompt", "Agent registry initialization");
            ("output_response", "Failed to initialize: " ++ exn_str e)])].

Definition handled (e : exn) : list Event :=
  if exn_is_Exception e then failure_events e else [].

Definition ConfigurationError : exn :=
  ValueError "GOOGLE_API_KEY not found in environment variables".

Definition NotInitializedError : exn :=
  RuntimeError "Agent registry not initialized. Call initialize() first.".

(** Which construction raises first, in the order the code runs them. *)
Definition first_raise (env : Env) : option (AgentKind * exn) :=
  match ctor_raises env Auditor with
  | Some e => Some (Auditor, e)
  | None =>
      match ctor_raises env Fixer with
      | Some e => Some (Fixer, e)
      | None =>
          match ctor_raises env Judge with
          | Some e => Some (Judge, e)
          | None => None
          end
      end
  end.

(** The bindings an attempt has stored when the construction of [k] is
    reached: those of the classes before [k], with identities counted from
    [n]. *)
Definition stored_before (k : AgentKind) (n : nat) (d : dict) : dict :=
  match k with
  | Auditor => d
  | Fixer => dict_set "auditor" (mk_agent Auditor n) d
  | Judge =>
      dict_set "fixer" (mk_agent Fixer (S n))
        (dict_set "auditor" (mk_agent Auditor n) d)
  end.

Definition stored_all (n : nat) (d : dict) : dict :=
  dict_set "judge" (mk_agent Judge (S (S n))) (stored_before Judge n d).

Definition count_before (k : AgentKind) : nat :=
  match k with Auditor => 0 | Fixer => 1 | Judge => 2 end.

(** Console lines and constructor calls of an attempt up to and including
    the construction of [k]. *)
Definition attempt_events (k : AgentKind) : list Event :=
  match k with
  | Auditor =>
      [EPrint "🔧 Initializing Agent Registry...";
       EPrint "  📋 Loading Auditor Agent..."; EConstruct Auditor]
  | Fixer =>
      [EPrint "🔧 Initializing Agent Registry...";
       EPrint "  📋 Loading Auditor Agent..."; EConstruct Auditor;
       EPrint "  🔧 Loading Fixer Agent..."; EConstruct Fixer]
  | Judge =>
      [EPrint "🔧 Initializing Agent Registry...";
       EPrint "  📋 Loading Auditor Agent..."; EConstruct Auditor;
       EPrint "  🔧 Loading Fixer Agent..."; EConstruct Fixer;
       EPrint "  ⚖️  Loading Judge Agent..."; EConstruct Judge]
  end.

Definition success_events (d : dict) : list Event :=
  [EPrint ("✅ Agent Registry initialized with "
           ++ str_of_nat (List.length d) ++ " agents");
   ELog (mk_log "AgentRegistry" "N/A" ANALYSIS
           [("input_prompt", "Agent registry initialization");
            ("output_response",
             "Successfully loaded " ++ str_of_nat (List.length d)
             ++ " agents: " ++ str_of_list (dict_keys d))])].

(** The three log-and-console events of a completed [shutdown]. *)
Definition shutdown_events : list Event :=
  [EPrint "🛑 Shutting down Agent Registry...";
   EPrint "✅ Agent Registry shutdown complete";
   ELog (mk_log "AgentRegistry" "N/A" ANALYSIS
           [("input_prompt", "Agent registry shutdown");
            ("output_response", "All agents released and registry cleared")])].

(** The two console lines of a lookup that finds nothing. *)
Definition miss_events (agent_name : string) (d : dict) : list Event :=
  [EPrint ("⚠️  Agent '" ++ agent_name ++ "' not found in registry");
   EPrint ("   Available agents: " ++ str_of_list (dict_keys d))].

(** Structured log entries among the events. *)
Definition log_entries (t : list Event) : list LogEntry :=
  omap (fun ev => match ev with ELog entry => Some entry | _ => None end) t.

(** Constructor invocations among the events. *)
Definition constructions (t : list Event) : list AgentKind :=
  omap (fun ev => match ev with EConstruct k => Some k | _ => None end) t.

(** ** Shapes of the dictionary *)

(** Names an un-initialised registry can hold: what failed attempts left. *)
Definition leftover_names (ks : list string) : Prop :=
  ks = [] \/ ks = ["auditor"] \/ ks = ["auditor"; "fixer"].

Definition registry_inv (r : Registry) : Prop :=
  if _initialized r
  then dict_keys (_agents r) = ["auditor"; "fixer"; "judge"]
  else leftover_names (dict_keys (_agents r)).

(** How many agent instances a call creates: the growth of the identity
    counter across it. *)
Definition built (c : Call) (st : State) : nat :=
  next_oid (snd (snd (call c st))) - next_oid (snd st).

(** The call raised after at least one constructor had returned. *)
Definition raised_after_building (c : Call) (st : State) : bool :=
  match fst (call c st) with
  | Raise _ => negb (built c st =? 0)%nat
  | Ok _ => false
  end.

(** No call of the sequence, run from [st], raised after building. *)
Fixpoint building_never_failed (cs : list Call) (st : State) : bool :=
  match cs with
  | [] => true
  | c :: cs' =>
      negb (raised_after_building c st)
      && building_never_failed cs' (snd (call c st))
  end.

(** No call of the sequence, run from [st], creates an agent. *)
Fixpoint builds_nothing (cs : list Call) (st : State) : bool :=
  match cs with
  | [] => true
  | c :: cs' =>
      (built c st =? 0)%nat && builds_nothing cs' (snd (call c st))
  end.

(** Flag down implies empty dictionary: the invariant the data model states. *)
Definition empty_when_uninitialized (r : Registry) : Prop :=
  _initialized r = false -> _agents r = [].

(** ** Sample worlds *)

Definition fresh_sys : Sys := mk_sys 0 [].

Definition env_ok : Env := mk_env (Some "secret") (fun _ => None).

Definition env_no_key : Env := mk_env None (fun _ => None).

Definition boom : exn := mk_exn "ConnectionError" "model endpoint unreachable" true.

Definition env_fixer_raises : Env :=
  mk_env (Some "secret")
    (fun k => match k with Fixer => Some boom | _ => None end).

Definition env_judge_raises : Env :=
  mk_env (Some "secret")
    (fun k => match k with Judge => Some boom | _ => None end).

(** ** Vocabulary of the further properties *)

(** The dictionary key under which [initialize] stores each class. *)
Definition key_of (k : AgentKind) : string :=
  match k with
  | Auditor => "auditor"
  | Fixer => "fixer"
  | Judge => "judge"
  end.

(** Every binding holds an instance of the class its key names. *)
Definition well_kinded (d : dict) : Prop :=
  Forall (fun b => fst b = key_of (agent_kind (snd b))) d.

(** Every bound instance was created before the counter reached [n]. *)
Definition bound_below (n : nat) (d : dict) : Prop :=
  Forall (fun b => agent_oid (snd b) < n) d.

Definition registry_ok (st : State) : Prop :=
  registry_inv (fst st)
  /\ well_kinded (_agents (fst st))
  /\ bound_below (next_oid (snd st)) (_agents (fst st)).

(** The name a lookup call passes to [get_agent]. *)
Definition looked_up (c : Call) : option string :=
  match c with
  | CGetAgent agent_name => Some agent_name
  | CGetAuditor => Some "auditor"
  | CGetFixer => Some "fixer"
  | CGetJudge => Some "judge"
  | _ => None
  end.

(** The constructors an attempt runs when the construction of [k] is the
    first to raise, or all three when none does. *)
Definition constructors_run (o : option (AgentKind * exn)) : list AgentKind :=
  match o with
  | Some (Auditor, _) => [Auditor]
  | Some (Fixer, _) => [Auditor; Fixer]
  | Some (Judge, _) | None => [Auditor; Fixer; Judge]
  end.

(** The structured log entry of a failed attempt. *)
Definition failure_entry (e : exn) : LogEntry :=
  mk_log "AgentRegistry" "N/A" DEBUG
    [("input_prompt", "Agent registry initialization");
     ("output_response", "Failed to initialize: " ++ exn_str e)].

Definition interrupt : exn := mk_exn "KeyboardInterrupt" "" false.

Definition env_auditor_interrupted : Env :=
  mk_env (Some "secret")
    (fun k => match k with Auditor => Some interrupt | _ => None end).

Definition env_empty_key : Env := mk_env (Some "") (fun _ => None).

(** ** Well-formed worlds *)

(** The global, when set, refers to a registry of the heap, and every
    registry of the heap has the shape [registry_inv] describes with
    bindings of the right class. *)
Definition world_ok (w : World) : Prop :=
  match _registry_instance w with
  | Some l => l < List.length (heap w)
  | None => True
  end
  /\ Forall (fun r => registry_inv r /\ well_kinded (_agents r)) (heap w).

(** The registry the global refers to, if any. *)
Definition shared_registry (w : World) : option Registry :=
  match _registry_instance w with
  | Some l => heap w !! l
  | None => None
  end.


(** * Properties *)

(** ** Unfolding the monad *)

Ltac unfold_M :=
  unfold call, get_auditor, get_fixer, get_judge, list_agents, is_initialized,
    shutdown, get_agent, initialize, load, construct;
  unfold mbind, M_bind, mret, M_ret, fmap, M_fmap, raise,
    try_except_Exception, print, log_experiment, emit, read_agents,
    read_initialized, write_agents, write_initialized.

Lemma initialize_ready env r s :
  _initialized r = true ->
  initialize env (r, s) =
    (Ok tt, (r, mk_sys (next_oid s)
                  (trace s ++ [EPrint "⚠️  Agent registry already initialized"]))).
Proof.
  intros H. unfold_M. rewrite H. reflexivity.
Qed.

Lemma initialize_no_key env r s :
  _initialized r = false ->
  truthy (GOOGLE_API_KEY env) = false ->
  initialize env (r, s) =
    (Raise ConfigurationError,
     (r, mk_sys (next_oid s)
           (trace s ++ [EPrint "🔧 Initializing Agent Registry..."]
              ++ failure_events ConfigurationError))).
Proof.
  intros H K. unfold_M. rewrite H, K. simpl.
  rewrite <- !app_assoc. reflexivity.
Qed.

Lemma initialize_ctor_raises env r s k e :
  _initialized r = false ->
  truthy (GOOGLE_API_KEY env) = true ->
  first_raise env = Some (k, e) ->
  initialize env (r, s) =
    (Raise e,
     (mk_registry (stored_before k (next_oid s) (_agents r)) false,
      mk_sys (count_before k + next_oid s)
        (trace s ++ attempt_events k ++ handled e))).
Proof.
  intros H K F. destruct r as [d b], s as [n t]. simpl in H. subst b.
  unfold first_raise in F. unfold_M. simpl. rewrite K. simpl.
  destruct (ctor_raises env Auditor) as [eA|].
  { injection F as <- <-. simpl. unfold handled.
    destruct (exn_is_Exception eA); simpl; rewrite <- ?app_assoc; reflexivity. }
  simpl. destruct (ctor_raises env Fixer) as [eF|].
  { injection F as <- <-. simpl. unfold handled.
    destruct (exn_is_Exception eF); simpl; rewrite <- ?app_assoc; reflexivity. }
  simpl. destruct (ctor_raises env Judge) as [eJ|]; [|discriminate].
  injection F as <- <-. simpl. unfold handled.
  destruct (exn_is_Exception eJ); simpl; rewrite <- ?app_assoc; reflexivity.
Qed.

Lemma initialize_success env r s :
  _initialized r = false ->
  truthy (GOOGLE_API_KEY env) = true ->
  first_raise env = None ->
  initialize env (r, s) =
    (Ok tt,
     (mk_registry (stored_all (next_oid s) (_agents r)) true,
      mk_sys (3 + next_oid s)
        (trace s ++ attempt_events Judge
           ++ success_events (stored_all (next_oid s) (_agents r))))).
Proof.
  intros H K F. destruct r as [d b], s as [n t]. simpl in H. subst b.
  unfold first_raise in F. unfold_M. simpl. rewrite K. simpl.
  destruct (ctor_raises env Auditor); [discriminate|].
  destruct (ctor_raises env Fixer); [discriminate|].
  destruct (ctor_raises env Judge); [discriminate|].
  simpl. rewrite <- ?app_assoc. reflexivity.
Qed.

Lemma shutdown_uninitialized r s :
  _initialized r = false -> shutdown (r, s) = (Ok tt, (r, s)).
Proof. intros H. unfold_M. rewrite H. reflexivity. Qed.

Lemma shutdown_ready r s :
  _initialized r = true ->
  shutdown (r, s) =
    (Ok tt, (mk_registry [] false,
             mk_sys (next_oid s) (trace s ++ shutdown_events))).
Proof.
  intros H. unfold_M. rewrite H. simpl. rewrite <- !app_assoc. reflexivity.
Qed.

Lemma get_agent_uninitialized agent_name r s :
  _initialized r = false ->
  get_agent agent_name (r, s) = (Raise NotInitializedError, (r, s)).
Proof. intros H. unfold_M. rewrite H. reflexivity. Qed.

Lemma get_agent_found agent_name r s a :
  _initialized r = true ->
  dict_get (lower agent_name) (_agents r) = Some a ->
  get_agent agent_name (r, s) = (Ok (Some a), (r, s)).
Proof. intros H G. unfold_M. rewrite H. simpl. rewrite G. reflexivity. Qed.

Lemma get_agent_missing agent_name r s :
  _initialized r = true ->
  dict_get (lower agent_name) (_agents r) = None ->
  get_agent agent_name (r, s) =
    (Ok None, (r, mk_sys (next_oid s)
                    (trace s ++ miss_events agent_name (_agents r)))).
Proof.
  intros H G. unfold_M. rewrite H. simpl. rewrite G. simpl.
  rewrite <- !app_assoc. reflexivity.
Qed.

(** Lookups and queries never touch the receiver. *)
Lemma get_agent_frame agent_name r s : fst (snd (get_agent agent_name (r, s))) = r.
Proof.
  destruct (_initialized r) eqn:H.
  - destruct (dict_get (lower agent_name) (_agents r)) eqn:G.
    + erewrite get_agent_found; eauto.
    + rewrite get_agent_missing; auto.
  - rewrite get_agent_uninitialized; auto.
Qed.

Lemma call_frame c r s :
  (forall env, c <> CInitialize env) -> c <> CShutdown ->
  fst (snd (call c (r, s))) = r.
Proof.
  intros Hi Hs. destruct c; try congruence.
  - pose proof (get_agent_frame agent_name r s) as F.
    simpl. unfold fmap, M_fmap. destruct (get_agent agent_name (r, s)) as [[]]; exact F.
  - pose proof (get_agent_frame "auditor" r s) as F.
    simpl. unfold fmap, M_fmap, get_auditor.
    destruct (get_agent "auditor" (r, s)) as [[]]; exact F.
  - pose proof (get_agent_frame "fixer" r s) as F.
    simpl. unfold fmap, M_fmap, get_fixer.
    destruct (get_agent "fixer" (r, s)) as [[]]; exact F.
  - pose proof (get_agent_frame "judge" r s) as F.
    simpl. unfold fmap, M_fmap, get_judge.
    destruct (get_agent "judge" (r, s)) as [[]]; exact F.
  - reflexivity.
  - reflexivity.
Qed.

(** ** The shape of the dictionary along any run *)

Lemma keys_nil d : dict_keys d = [] -> d = [].
Proof. destruct d; [reflexivity | discriminate]. Qed.

Lemma keys_cons d k ks :
  dict_keys d = k :: ks -> exists a d', d = (k, a) :: d' /\ dict_keys d' = ks.
Proof.
  destruct d as [|[k' a] d']; simpl; [discriminate|].
  intros E. injection E as -> <-. eauto.
Qed.

Ltac shape :=
  repeat match goal with
  | H : dict_keys _ = [] |- _ => apply keys_nil in H; subst
  | H : dict_keys _ = _ :: _ |- _ =>
      apply keys_cons in H; destruct H as (? & ? & -> & H)
  end.

Lemma leftover_cases d :
  leftover_names (dict_keys d) ->
  d = [] \/ (exists a, d = [("auditor", a)])
  \/ (exists a f, d = [("auditor", a); ("fixer", f)]).
Proof.
  intros [H | [H | H]]; shape; eauto.
Qed.

Lemma stored_all_keys n d :
  leftover_names (dict_keys d) ->
  dict_keys (stored_all n d) = ["auditor"; "fixer"; "judge"].
Proof.
  intros H. apply leftover_cases in H.
  destruct H as [-> | [[a ->] | (a & f & ->)]]; reflexivity.
Qed.

Lemma stored_before_keys k n d :
  leftover_names (dict_keys d) ->
  leftover_names (dict_keys (stored_before k n d)).
Proof.
  intros H. apply leftover_cases in H. unfold leftover_names.
  destruct H as [-> | [[a ->] | (a & f & ->)]]; destruct k; simpl; auto.
Qed.

Lemma initialize_inv env r s :
  registry_inv r -> registry_inv (fst (snd (initialize env (r, s)))).
Proof.
  intros I. destruct (_initialized r) eqn:H.
  { rewrite initialize_ready by assumption. exact I. }
  unfold registry_inv in I. rewrite H in I.
  destruct (truthy (GOOGLE_API_KEY env)) eqn:K.
  2:{ rewrite initialize_no_key by assumption. simpl.
      unfold registry_inv. rewrite H. exact I. }
  destruct (first_raise env) as [[k e]|] eqn:F.
  - erewrite initialize_ctor_raises by eassumption. simpl.
    unfold registry_inv. simpl. apply stored_before_keys, I.
  - rewrite initialize_success by assumption. simpl.
    unfold registry_inv. simpl. apply stored_all_keys, I.
Qed.

Lemma shutdown_inv r s :
  registry_inv r -> registry_inv (fst (snd (shutdown (r, s)))).
Proof.
  intros I. destruct (_initialized r) eqn:H.
  - rewrite shutdown_ready by assumption. simpl. left. reflexivity.
  - rewrite shutdown_uninitialized by assumption. exact I.
Qed.

Lemma bind_const_state {A B} (m : M A) (b : B) st :
  snd ((m ;; mret b) st) = snd (m st).
Proof.
  unfold mbind, M_bind, mret, M_ret. destruct (m st) as [[a|e] st']; reflexivity.
Qed.

Lemma call_inv c r s :
  registry_inv r -> registry_inv (fst (snd (call c (r, s)))).
Proof.
  intros I.
  destruct c;
    try (rewrite call_frame by congruence; exact I).
  - simpl. rewrite bind_const_state. apply initialize_inv, I.
  - simpl. rewrite bind_const_state. apply shutdown_inv, I.
Qed.

Lemma run_inv cs : forall st, registry_inv (fst st) -> registry_inv (fst (run cs st)).
Proof.
  induction cs as [|c cs IH]; intros [r s] I; simpl; [exact I|].
  apply IH. apply call_inv, I.
Qed.

Lemma fresh_inv : registry_inv AgentRegistry__init__.
Proof. left. reflexivity. Qed.

Lemma call_initialize env st :
  call (CInitialize env) st =
    match initialize env st with
    | (Ok _, st') => (Ok VNone, st')
    | (Raise e, st') => (Raise e, st')
    end.
Proof. reflexivity. Qed.

Lemma initialize_clean env r s :
  raised_after_building (CInitialize env) (r, s) = false ->
  empty_when_uninitialized r ->
  empty_when_uninitialized (fst (snd (initialize env (r, s)))).
Proof.
  intros P E. destruct (_initialized r) eqn:H.
  { rewrite initialize_ready by assumption. exact E. }
  specialize (E H).
  destruct (truthy (GOOGLE_API_KEY env)) eqn:K.
  2:{ rewrite initialize_no_key by assumption. intros _. exact E. }
  destruct (first_raise env) as [[k e]|] eqn:F.
  - unfold raised_after_building, built in P. rewrite call_initialize in P.
    rewrite (initialize_ctor_raises env r s k e H K F) in *.
    simpl in *. rewrite E. intros _.
    destruct k; [reflexivity | |]; exfalso; simpl in P;
      [replace (S (next_oid s) - next_oid s) with 1 in P by lia
      |replace (S (S (next_oid s)) - next_oid s) with 2 in P by lia];
      discriminate P.
  - rewrite initialize_success by assumption. intros Hf. discriminate Hf.
Qed.

Lemma call_clean c r s :
  raised_after_building c (r, s) = false ->
  empty_when_uninitialized r ->
  empty_when_uninitialized (fst (snd (call c (r, s)))).
Proof.
  intros P E.
  destruct c; try (rewrite call_frame by congruence; exact E).
  - simpl. rewrite bind_const_state. apply initialize_clean; assumption.
  - simpl. rewrite bind_const_state. destruct (_initialized r) eqn:H.
    + rewrite shutdown_ready by assumption. intros _. reflexivity.
    + rewrite shutdown_uninitialized by assumption. exact E.
Qed.

Lemma run_clean cs : forall st,
  building_never_failed cs st = true ->
  empty_when_uninitialized (fst st) ->
  empty_when_uninitialized (fst (run cs st)).
Proof.
  induction cs as [|c cs IH]; intros [r s] P E; simpl; [exact E|].
  simpl in P. apply andb_true_iff in P as [Pc P].
  apply negb_true_iff in Pc.
  apply IH; [exact P|]. apply call_clean; assumption.
Qed.

Lemma leftover_no_judge d :
  leftover_names (dict_keys d) -> dict_get "judge" d = None.
Proof.
  intros H. apply leftover_cases in H.
  destruct H as [-> | [[a ->] | (a & f & ->)]]; reflexivity.
Qed.

(** ** The code on concrete inputs *)

Example lower_AUDITOR : lower "AUDITOR" = "auditor".
Proof. reflexivity. Qed.

Example lower_keeps_other_bytes : lower "Judge-2_[x]" = "judge-2_[x]".
Proof. reflexivity. Qed.

Example empty_credential_is_falsy : truthy (Some "") = false.
Proof. reflexivity. Qed.

Example dict_set_keeps_position :
  dict_keys (dict_set "auditor" (mk_agent Auditor 7)
               [("auditor", mk_agent Auditor 0); ("fixer", mk_agent Fixer 1)])
  = ["auditor"; "fixer"].
Proof. reflexivity. Qed.

(** The life cycle of section 8: three agents loaded with one success entry,
    the fixer handed out, the registry cleared with one more entry, and the
    lookup failing afterwards. *)
Example full_lifecycle :
  let st1 := snd (initialize env_ok (AgentRegistry__init__, fresh_sys)) in
  let st2 := snd (shutdown st1) in
  fst (list_agents st1) = Ok ["auditor"; "fixer"; "judge"] /\
  List.length (log_entries (trace (snd st1))) = 1 /\
  fst (get_fixer st1) = Ok (Some (mk_agent Fixer 1)) /\
  fst (list_agents st2) = Ok [] /\
  List.length (log_entries (trace (snd st2))) = 2 /\
  fst (get_fixer st2) = Raise NotInitializedError.
Proof. repeat split. Qed.

(** ** C1 *)

(** C1, as the code has it.  Along every sequence of calls on a new
    registry, a registry whose flag is false holds only what failed
    [initialize] attempts left behind: no name, or [auditor], or [auditor]
    then [fixer], and never a judge.  The dictionary is empty whenever no
    call of the sequence raised after building an agent. *)
Theorem C1_uninitialized_registry_holds_only_leftovers
    (cs : list Call) (s : Sys) :
  let r := fst (run cs (AgentRegistry__init__, s)) in
  _initialized r = false ->
  leftover_names (dict_keys (_agents r)) /\
  dict_get "judge" (_agents r) = None /\
  (building_never_failed cs (AgentRegistry__init__, s) = true ->
   _agents r = []).
Proof.
  intros r H.
  pose proof (run_inv cs (AgentRegistry__init__, s) fresh_inv) as I.
  fold r in I. unfold registry_inv in I. rewrite H in I.
  split; [exact I|]. split; [apply leftover_no_judge, I|].
  intros P. apply (run_clean cs (AgentRegistry__init__, s) P); [|exact H].
  intros _. reflexivity.
Qed.

Lemma C1_witness :
  let r := fst (run [CInitialize env_no_key; CInitialize env_ok; CShutdown]
                  (AgentRegistry__init__, fresh_sys)) in
  _initialized r = false /\
  leftover_names (dict_keys (_agents r)) /\
  dict_get "judge" (_agents r) = None /\
  _agents r = [].
Proof.
  pose proof (C1_uninitialized_registry_holds_only_leftovers
                [CInitialize env_no_key; CInitialize env_ok; CShutdown]
                fresh_sys eq_refl) as (L & J & E).
  split; [reflexivity|]. split; [exact L|]. split; [exact J|].
  apply E. reflexivity.
Defined.

(** C1 as stated fails: one [initialize] in which the fixer's constructor
    raises leaves the flag false and the auditor bound. *)
Lemma C1_counterexample :
  let st := run [CInitialize env_fixer_raises] (AgentRegistry__init__, fresh_sys) in
  _initialized (fst st) = false /\
  _agents (fst st) = [("auditor", mk_agent Auditor 0)] /\
  _agents (fst st) <> [] /\
  fst (list_agents st) = Ok ["auditor"].
Proof.
  simpl. repeat split; try reflexivity. discriminate.
Qed.

(** ** C2 *)

Lemma get_agent_raises_iff agent_name r s :
  fst (get_agent agent_name (r, s)) = Raise NotInitializedError
  <-> _initialized r = false.
Proof.
  split.
  - intros R. destruct (_initialized r) eqn:H; [|reflexivity].
    destruct (dict_get (lower agent_name) (_agents r)) eqn:G.
    + erewrite get_agent_found in R by eassumption. discriminate R.
    + rewrite get_agent_missing in R by assumption. discriminate R.
  - intros H. rewrite get_agent_uninitialized by assumption. reflexivity.
Qed.

Lemma get_agent_raises_only agent_name r s e :
  fst (get_agent agent_name (r, s)) = Raise e -> e = NotInitializedError.
Proof.
  intros R. destruct (_initialized r) eqn:H.
  - destruct (dict_get (lower agent_name) (_agents r)) eqn:G.
    + erewrite get_agent_found in R by eassumption. discriminate R.
    + rewrite get_agent_missing in R by assumption. discriminate R.
  - rewrite get_agent_uninitialized in R by assumption.
    injection R as <-. reflexivity.
Qed.

(** C2.  After every sequence of calls on a new registry, each of
    [get_agent], [get_auditor], [get_fixer] and [get_judge] raises the
    not-initialised error exactly when the flag is false; it is the only
    error a lookup raises. *)
Theorem C2_lookups_raise_iff_uninitialized
    (cs : list Call) (s : Sys) (agent_name : string) :
  let st := run cs (AgentRegistry__init__, s) in
  (fst (get_agent agent_name st) = Raise NotInitializedError
   <-> _initialized (fst st) = false) /\
  (fst (get_auditor st) = Raise NotInitializedError
   <-> _initialized (fst st) = false) /\
  (fst (get_fixer st) = Raise NotInitializedError
   <-> _initialized (fst st) = false) /\
  (fst (get_judge st) = Raise NotInitializedError
   <-> _initialized (fst st) = false) /\
  (forall e, fst (get_agent agent_name st) = Raise e -> e = NotInitializedError).
Proof.
  intros st. destruct st as [r s'].
  unfold get_auditor, get_fixer, get_judge. simpl fst.
  repeat split;
    try (apply get_agent_raises_iff);
    try (intros H; apply get_agent_raises_iff; exact H).
  intros e. apply get_agent_raises_only.
Qed.

Lemma C2_witness :
  let st := run [CInitialize env_ok; CShutdown] (AgentRegistry__init__, fresh_sys) in
  fst (get_agent "Fixer" st) = Raise NotInitializedError /\
  fst (get_auditor st) = Raise NotInitializedError /\
  fst (get_fixer st) = Raise NotInitializedError /\
  fst (get_judge st) = Raise NotInitializedError.
Proof.
  pose proof (C2_lookups_raise_iff_uninitialized
                [CInitialize env_ok; CShutdown] fresh_sys "Fixer")
    as (G & A & F & J & _).
  split; [apply G; reflexivity|]. split; [apply A; reflexivity|].
  split; [apply F; reflexivity | apply J; reflexivity].
Defined.

(** ** Dictionary facts *)

Lemma dict_get_set_eq k v d : dict_get k (dict_set k v d) = Some v.
Proof.
  induction d as [|[k' v'] d IH]; simpl.
  - rewrite String.eqb_refl. reflexivity.
  - destruct (String.eqb k k') eqn:E; simpl.
    + rewrite String.eqb_refl. reflexivity.
    + rewrite E. exact IH.
Qed.

Lemma dict_get_set_ne k k' v d :
  k <> k' -> dict_get k (dict_set k' v d) = dict_get k d.
Proof.
  intros N. induction d as [|[k0 v0] d IH]; simpl.
  - apply String.eqb_neq in N. rewrite N. reflexivity.
  - destruct (String.eqb k' k0) eqn:E; simpl.
    + apply String.eqb_eq in E. subst k0.
      apply String.eqb_neq in N. rewrite N. reflexivity.
    + destruct (String.eqb k k0); [reflexivity | exact IH].
Qed.

Lemma dict_get_keys k d :
  In k (dict_keys d) -> exists a, dict_get k d = Some a.
Proof.
  induction d as [|[k' v'] d IH]; simpl; [contradiction|].
  intros [E | I].
  - subst k'. rewrite String.eqb_refl. eauto.
  - destruct (String.eqb k k'); eauto.
Qed.

Lemma lower_ascii_idem c : lower_ascii (lower_ascii c) = lower_ascii c.
Proof. destruct c as [[] [] [] [] [] [] [] []]; reflexivity. Qed.

Lemma lower_idem s : lower (lower s) = lower s.
Proof.
  induction s as [|c s IH]; simpl; [reflexivity|].
  rewrite lower_ascii_idem, IH. reflexivity.
Qed.

Lemma log_entries_app t1 t2 :
  log_entries (t1 ++ t2) = (log_entries t1 ++ log_entries t2)%list.
Proof. unfold log_entries. apply omap_app. Qed.

Lemma constructions_app t1 t2 :
  constructions (t1 ++ t2) = (constructions t1 ++ constructions t2)%list.
Proof. unfold constructions. apply omap_app. Qed.

(** ** C3 *)

(** C3.  On a registry whose flag is false, with the credential present,
    let the construction of [k] be the first to raise, with error [e].  Then
    [initialize] raises that very [e], the flag is still false (and
    [is_initialized] says so), and the agents built earlier in the attempt
    are still bound: nothing is rolled back. *)
Theorem C3_construction_error_propagates_without_rollback
    (env : Env) (r : Registry) (s : Sys) (k : AgentKind) (e : exn) :
  _initialized r = false ->
  truthy (GOOGLE_API_KEY env) = true ->
  first_raise env = Some (k, e) ->
  let out := initialize env (r, s) in
  fst out = Raise e /\
  _initialized (fst (snd out)) = false /\
  fst (is_initialized (snd out)) = Ok false /\
  _agents (fst (snd out)) = stored_before k (next_oid s) (_agents r) /\
  (k <> Auditor ->
   dict_get "auditor" (_agents (fst (snd out)))
     = Some (mk_agent Auditor (next_oid s))) /\
  (k = Judge ->
   dict_get "fixer" (_agents (fst (snd out)))
     = Some (mk_agent Fixer (S (next_oid s)))).
Proof.
  intros H K F out. unfold out.
  erewrite initialize_ctor_raises by eassumption. simpl.
  repeat split.
  - intros N. destruct k; [congruence | |]; simpl.
    + apply dict_get_set_eq.
    + rewrite dict_get_set_ne by discriminate. apply dict_get_set_eq.
  - intros ->. simpl. apply dict_get_set_eq.
Qed.

Lemma C3_witness :
  let out := initialize env_judge_raises (AgentRegistry__init__, fresh_sys) in
  fst out = Raise boom /\
  _initialized (fst (snd out)) = false /\
  fst (is_initialized (snd out)) = Ok false /\
  _agents (fst (snd out))
    = [("auditor", mk_agent Auditor 0); ("fixer", mk_agent Fixer 1)] /\
  dict_get "auditor" (_agents (fst (snd out))) = Some (mk_agent Auditor 0) /\
  dict_get "fixer" (_agents (fst (snd out))) = Some (mk_agent Fixer 1).
Proof.
  pose proof (C3_construction_error_propagates_without_rollback
                env_judge_raises AgentRegistry__init__ fresh_sys Judge boom
                eq_refl eq_refl eq_refl) as (R & I & Q & D & A & F).
  split; [exact R|]. split; [exact I|]. split; [exact Q|]. split; [exact D|].
  split; [apply A; discriminate | apply F; reflexivity].
Defined.

(** ** C4 *)

(** C4.  With the credential variable unset, [initialize] on a registry
    whose flag is false raises the configuration error, runs no constructor
    and stores nothing, leaves [is_initialized] false, and adds exactly one
    entry, of the failure kind, to the structured log. *)
Theorem C4_missing_credential_fails_before_any_construction
    (env : Env) (r : Registry) (s : Sys) :
  _initialized r = false ->
  GOOGLE_API_KEY env = None ->
  let out := initialize env (r, s) in
  fst out = Raise ConfigurationError /\
  fst (snd out) = r /\
  next_oid (snd (snd out)) = next_oid s /\
  constructions (trace (snd (snd out))) = constructions (trace s) /\
  fst (is_initialized (snd out)) = Ok false /\
  log_entries (trace (snd (snd out)))
    = (log_entries (trace s)
       ++ [mk_log "AgentRegistry" "N/A" DEBUG
             [("input_prompt", "Agent registry initialization");
              ("output_response",
               "Failed to initialize: GOOGLE_API_KEY not found in environment variables")]])%list.
Proof.
  intros H K out. unfold out.
  rewrite initialize_no_key by (rewrite ?K; auto). simpl.
  repeat split.
  - rewrite constructions_app. simpl. apply app_nil_r.
  - unfold is_initialized, read_initialized. simpl. rewrite H. reflexivity.
  - rewrite log_entries_app. reflexivity.
Qed.

Lemma C4_witness :
  let out := initialize env_no_key (AgentRegistry__init__, fresh_sys) in
  fst out = Raise ConfigurationError /\
  fst (snd out) = AgentRegistry__init__ /\
  next_oid (snd (snd out)) = 0 /\
  constructions (trace (snd (snd out))) = [] /\
  fst (is_initialized (snd out)) = Ok false /\
  log_entries (trace (snd (snd out)))
    = [mk_log "AgentRegistry" "N/A" DEBUG
         [("input_prompt", "Agent registry initialization");
          ("output_response",
           "Failed to initialize: GOOGLE_API_KEY not found in environment variables")]].
Proof.
  apply (C4_missing_credential_fails_before_any_construction
           env_no_key AgentRegistry__init__ fresh_sys); reflexivity.
Defined.

(** ** C5 *)

Lemma get_agent_same_lower n1 n2 r s :
  _initialized r = true ->
  lower n1 = lower n2 ->
  fst (get_agent n1 (r, s)) = fst (get_agent n2 (r, s)).
Proof.
  intros H L.
  destruct (dict_get (lower n1) (_agents r)) as [a|] eqn:G.
  - rewrite (get_agent_found n1 r s a H G).
    rewrite L in G. rewrite (get_agent_found n2 r s a H G). reflexivity.
  - rewrite (get_agent_missing n1 r s H G).
    rewrite L in G. rewrite (get_agent_missing n2 r s H G). reflexivity.
Qed.

(** C5.  On a registry whose flag is true, [get_agent] looks the lowercased
    name up.  A bound name yields its instance and nothing else happens; in
    particular [AUDITOR] and [auditor], and any two spellings that agree
    once lowercased, yield the same result.  A name that is not bound
    yields the absent result, not an error, after two console lines, the
    second of which lists the names currently bound. *)
Theorem C5_get_agent_is_case_insensitive_and_absent_on_miss
    (r : Registry) (s : Sys) (agent_name : string) :
  _initialized r = true ->
  (forall a, dict_get (lower agent_name) (_agents r) = Some a ->
     get_agent agent_name (r, s) = (Ok (Some a), (r, s))) /\
  (In (lower agent_name) (dict_keys (_agents r)) ->
     exists a, get_agent agent_name (r, s) = (Ok (Some a), (r, s))) /\
  fst (get_agent "AUDITOR" (r, s)) = fst (get_agent "auditor" (r, s)) /\
  (forall other, lower other = lower agent_name ->
     fst (get_agent other (r, s)) = fst (get_agent agent_name (r, s))) /\
  (dict_get (lower agent_name) (_agents r) = None ->
     get_agent agent_name (r, s) =
       (Ok None,
        (r, mk_sys (next_oid s)
              (trace s ++
               [EPrint ("⚠️  Agent '" ++ agent_name ++ "' not found in registry");
                EPrint ("   Available agents: "
                        ++ str_of_list (dict_keys (_agents r)))])))).
Proof.
  intros H. split; [|split; [|split; [|split]]].
  - intros a G. apply get_agent_found; assumption.
  - intros I. apply dict_get_keys in I as [a G].
    exists a. apply get_agent_found; assumption.
  - apply get_agent_same_lower; [assumption | reflexivity].
  - intros other L. apply get_agent_same_lower; assumption.
  - intros G. apply get_agent_missing; assumption.
Qed.

Lemma C5_witness :
  let st := snd (initialize env_ok (AgentRegistry__init__, fresh_sys)) in
  fst (get_agent "AUDITOR" st) = Ok (Some (mk_agent Auditor 0)) /\
  fst (get_agent "auditor" st) = Ok (Some (mk_agent Auditor 0)) /\
  fst (get_agent "nonexistent" st) = Ok None /\
  trace (snd (snd (get_agent "nonexistent" st)))
    = (trace (snd st) ++
       [EPrint "⚠️  Agent 'nonexistent' not found in registry";
        EPrint "   Available agents: ['auditor', 'fixer', 'judge']"])%list.
Proof.
  pose proof (C5_get_agent_is_case_insensitive_and_absent_on_miss
                (fst (snd (initialize env_ok (AgentRegistry__init__, fresh_sys))))
                (snd (snd (initialize env_ok (AgentRegistry__init__, fresh_sys))))
                "AUDITOR" eq_refl) as (F & _ & E & _).
  pose proof (C5_get_agent_is_case_insensitive_and_absent_on_miss
                (fst (snd (initialize env_ok (AgentRegistry__init__, fresh_sys))))
                (snd (snd (initialize env_ok (AgentRegistry__init__, fresh_sys))))
                "nonexistent" eq_refl) as (_ & _ & _ & _ & N).
  specialize (F (mk_agent Auditor 0) eq_refl).
  specialize (N eq_refl).
  split; [|split; [|split]].
  - exact (f_equal fst F).
  - exact (eq_trans (eq_sym E) (f_equal fst F)).
  - exact (f_equal fst N).
  - exact (f_equal (fun o => trace (snd (snd o))) N).
Defined.

(** ** C6 *)

Lemma initialize_ok_inv env r s :
  _initialized r = false ->
  fst (initialize env (r, s)) = Ok tt ->
  truthy (GOOGLE_API_KEY env) = true /\ first_raise env = None.
Proof.
  intros H R.
  destruct (truthy (GOOGLE_API_KEY env)) eqn:K.
  2:{ rewrite initialize_no_key in R by assumption. discriminate R. }
  destruct (first_raise env) as [[k e]|] eqn:F; [|auto].
  erewrite initialize_ctor_raises in R by eassumption. discriminate R.
Qed.

(** C6.  When [initialize] returns normally on a newly constructed registry,
    [list_agents] returns the names [auditor], [fixer], [judge], in that
    order, and changes nothing. *)
Theorem C6_list_agents_after_successful_initialize (env : Env) (s : Sys) :
  let out := initialize env (AgentRegistry__init__, s) in
  fst out = Ok tt ->
  list_agents (snd out) = (Ok ["auditor"; "fixer"; "judge"], snd out).
Proof.
  intros out R. unfold out in *.
  apply initialize_ok_inv in R as [K F]; [|reflexivity].
  rewrite initialize_success by auto. reflexivity.
Qed.

Lemma C6_witness :
  fst (initialize env_ok (AgentRegistry__init__, fresh_sys)) = Ok tt /\
  list_agents (snd (initialize env_ok (AgentRegistry__init__, fresh_sys)))
    = (Ok ["auditor"; "fixer"; "judge"],
       snd (initialize env_ok (AgentRegistry__init__, fresh_sys))).
Proof.
  split; [reflexivity|].
  apply (C6_list_agents_after_successful_initialize env_ok fresh_sys).
  reflexivity.
Defined.

(** ** C7 *)

(** C7.  [shutdown] on a registry whose flag is false changes nothing and
    emits nothing.  On a registry whose flag is true it empties the
    dictionary, resets the flag, and emits its two console lines and one
    structured log entry.  A second [shutdown] right after the first is such
    a no-op, whatever the first one did. *)
Theorem C7_shutdown_clears_once (r : Registry) (s : Sys) :
  shutdown (r, s) =
    (if _initialized r
     then (Ok tt, (mk_registry [] false,
                   mk_sys (next_oid s) (trace s ++ shutdown_events)))
     else (Ok tt, (r, s))) /\
  log_entries shutdown_events =
    [mk_log "AgentRegistry" "N/A" ANALYSIS
       [("input_prompt", "Agent registry shutdown");
        ("output_response", "All agents released and registry cleared")]] /\
  fst (is_initialized (snd (shutdown (r, s)))) = Ok false /\
  fst (list_agents (snd (shutdown (r, s))))
    = Ok (if _initialized r then [] else dict_keys (_agents r)) /\
  shutdown (snd (shutdown (r, s))) = (Ok tt, snd (shutdown (r, s))) /\
  (shutdown ;; shutdown) (r, s) = shutdown (r, s).
Proof.
  destruct (_initialized r) eqn:H.
  - rewrite shutdown_ready by assumption. simpl snd.
    repeat split.
    unfold mbind, M_bind. rewrite shutdown_ready by assumption. reflexivity.
  - rewrite shutdown_uninitialized by assumption. simpl snd.
    rewrite shutdown_uninitialized by assumption.
    repeat split.
    + unfold is_initialized, read_initialized. simpl. rewrite H. reflexivity.
    + unfold mbind, M_bind. rewrite shutdown_uninitialized by assumption.
      apply shutdown_uninitialized. assumption.
Qed.

Lemma C7_witness :
  let st := snd (initialize env_ok (AgentRegistry__init__, fresh_sys)) in
  fst (snd (shutdown st)) = mk_registry [] false /\
  log_entries (trace (snd (snd (shutdown st))))
    = (log_entries (trace (snd st)) ++ log_entries shutdown_events)%list /\
  shutdown (snd (shutdown st)) = (Ok tt, snd (shutdown st)) /\
  shutdown (AgentRegistry__init__, fresh_sys)
    = (Ok tt, (AgentRegistry__init__, fresh_sys)).
Proof.
  pose proof (C7_shutdown_clears_once
                (fst (snd (initialize env_ok (AgentRegistry__init__, fresh_sys))))
                (snd (snd (initialize env_ok (AgentRegistry__init__, fresh_sys)))))
    as (E & _ & _ & _ & T & _).
  pose proof (C7_shutdown_clears_once AgentRegistry__init__ fresh_sys)
    as (U & _).
  split; [exact (f_equal (fun o => fst (snd o)) E)|].
  split; [reflexivity|]. split; [exact T | exact U].
Defined.

(** ** C8 *)

(** C8.  When a first [initialize] on a new registry has returned normally,
    a second one right after it, whatever the outside world then is, returns
    normally too, leaves the registry as it was, builds nothing, and prints
    one warning line. *)
Theorem C8_second_initialize_is_skipped (env1 env2 : Env) (s : Sys) :
  let out1 := initialize env1 (AgentRegistry__init__, s) in
  fst out1 = Ok tt ->
  let out2 := initialize env2 (snd out1) in
  fst out2 = Ok tt /\
  fst (snd out2) = fst (snd out1) /\
  next_oid (snd (snd out2)) = next_oid (snd (snd out1)) /\
  trace (snd (snd out2))
    = (trace (snd (snd out1))
       ++ [EPrint "⚠️  Agent registry already initialized"])%list.
Proof.
  intros out1 R out2. unfold out2, out1 in *. clear out1 out2.
  apply initialize_ok_inv in R as [K F]; [|reflexivity].
  rewrite (initialize_success env1) by auto. simpl snd.
  rewrite initialize_ready by reflexivity. simpl. auto.
Qed.

Lemma C8_witness :
  let out1 := initialize env_ok (AgentRegistry__init__, fresh_sys) in
  let out2 := initialize env_fixer_raises (snd out1) in
  fst out1 = Ok tt /\
  fst out2 = Ok tt /\
  fst (snd out2) = fst (snd out1) /\
  next_oid (snd (snd out2)) = next_oid (snd (snd out1)) /\
  trace (snd (snd out2))
    = (trace (snd (snd out1))
       ++ [EPrint "⚠️  Agent registry already initialized"])%list.
Proof.
  split; [reflexivity|].
  apply (C8_second_initialize_is_skipped env_ok env_fixer_raises fresh_sys).
  reflexivity.
Defined.

(** ** C9 *)

Lemma invoke_keeps_global {A} l (m : M A) w :
  _registry_instance (snd (invoke l m w)) = _registry_instance w.
Proof.
  unfold invoke. destruct (heap w !! l) as [r|]; [|reflexivity].
  destruct (m (r, sys w)) as [res [r' s']]. reflexivity.
Qed.

Lemma get_registry_bound w l :
  _registry_instance w = Some l -> get_registry w = (l, w).
Proof. intros G. unfold get_registry. rewrite G. reflexivity. Qed.

Lemma exec_keeps_instance st w l :
  _registry_instance w = Some l -> _registry_instance (exec st w) = Some l.
Proof.
  intros G. destruct st; simpl.
  - exact G.
  - rewrite (get_registry_bound w l G). exact G.
  - rewrite invoke_keeps_global. exact G.
  - unfold get_auditor_agent. rewrite (get_registry_bound w l G).
    rewrite invoke_keeps_global. exact G.
  - unfold get_fixer_agent. rewrite (get_registry_bound w l G).
    rewrite invoke_keeps_global. exact G.
  - unfold get_judge_agent. rewrite (get_registry_bound w l G).
    rewrite invoke_keeps_global. exact G.
Qed.

Lemma exec_all_keeps_instance p : forall w l,
  _registry_instance w = Some l -> _registry_instance (exec_all p w) = Some l.
Proof.
  induction p as [|st p IH]; intros w l G; simpl; [exact G|].
  apply IH, exec_keeps_instance, G.
Qed.

Lemma get_registry_sets_instance w :
  _registry_instance (snd (get_registry w)) = Some (fst (get_registry w)).
Proof.
  unfold get_registry. destruct (_registry_instance w) eqn:G; simpl; auto.
Qed.

(** C9.  [get_registry] returns the registry the global refers to when
    there is one, and leaves the world alone.  When there is none it puts a
    new registry, flag false and dictionary empty, at a fresh location,
    makes the global refer to it and returns it.  Either way nothing is
    printed, logged or constructed, so no [initialize] has run, and the
    registries that existed are untouched.  A second call returns the same
    reference as the first, also after any client code in between. *)
Theorem C9_get_registry_is_a_lazy_singleton (w : World) (p : list Stmt) :
  get_registry w =
    match _registry_instance w with
    | Some l => (l, w)
    | None =>
        (List.length (heap w),
         mk_world (heap w ++ [AgentRegistry__init__])%list
           (Some (List.length (heap w))) (sys w))
    end /\
  match _registry_instance w with
  | Some _ => True
  | None =>
      heap (snd (get_registry w)) !! fst (get_registry w)
        = Some (mk_registry [] false)
  end /\
  _registry_instance (snd (get_registry w)) = Some (fst (get_registry w)) /\
  sys (snd (get_registry w)) = sys w /\
  (forall l r, heap w !! l = Some r ->
     heap (snd (get_registry w)) !! l = Some r) /\
  fst (get_registry (snd (get_registry w))) = fst (get_registry w) /\
  fst (get_registry (exec_all p (snd (get_registry w))))
    = fst (get_registry w).
Proof.
  split; [unfold get_registry; destruct (_registry_instance w); reflexivity|].
  split.
  { unfold get_registry. destruct (_registry_instance w) eqn:G; [exact I|].
    simpl. apply list_lookup_middle. reflexivity. }
  split; [apply get_registry_sets_instance|].
  split; [unfold get_registry; destruct (_registry_instance w); reflexivity|].
  split.
  { intros l r L. unfold get_registry.
    destruct (_registry_instance w); simpl; [exact L|].
    apply lookup_app_l_Some. exact L. }
  split.
  - rewrite (get_registry_bound _ _ (get_registry_sets_instance w)). reflexivity.
  - rewrite (get_registry_bound _ (fst (get_registry w))); [reflexivity|].
    apply exec_all_keeps_instance, get_registry_sets_instance.
Qed.

Lemma C9_witness :
  let w0 := module_loaded fresh_sys in
  let w1 := snd (get_registry w0) in
  let w2 := exec_all [SNew; SMethod 0 (CInitialize env_ok); SGetFixerAgent] w1 in
  fst (get_registry w0) = 0 /\
  heap w1 !! 0 = Some (mk_registry [] false) /\
  sys w1 = fresh_sys /\
  fst (get_registry w1) = 0 /\
  fst (get_registry w2) = 0 /\
  List.length (heap w2) = 2.
Proof.
  pose proof (C9_get_registry_is_a_lazy_singleton (module_loaded fresh_sys)
                [SNew; SMethod 0 (CInitialize env_ok); SGetFixerAgent])
    as (_ & N & _ & S & _ & T & P).
  split; [reflexivity|]. split; [exact N|]. split; [exact S|].
  split; [exact T|]. split; [exact P | reflexivity].
Defined.

(** ** C10 *)

Lemma dict_set_keeps_key k k' v d :
  In k (dict_keys d) -> In k (dict_keys (dict_set k' v d)).
Proof.
  induction d as [|[k0 v0] d IH]; simpl; [contradiction|].
  intros [E | I]; destruct (String.eqb k' k0) eqn:Q; simpl; auto.
  apply String.eqb_eq in Q. subst. auto.
Qed.

Lemma dict_set_has_key k v d : In k (dict_keys (dict_set k v d)).
Proof.
  induction d as [|[k0 v0] d IH]; simpl; [auto|].
  destruct (String.eqb k k0); simpl; auto.
Qed.

Lemma call_without_building c r s :
  _initialized r = false -> built c (r, s) = 0 ->
  fst (snd (call c (r, s))) = r.
Proof.
  intros H N. destruct c; try (apply call_frame; congruence).
  - unfold built in N. rewrite call_initialize in N.
    simpl. rewrite bind_const_state.
    destruct (truthy (GOOGLE_API_KEY env)) eqn:K.
    2:{ rewrite initialize_no_key by assumption. reflexivity. }
    destruct (first_raise env) as [[k e]|] eqn:F.
    + rewrite (initialize_ctor_raises env r s k e H K F) in *. simpl in *.
      destruct k; simpl in N; [|lia|lia].
      destruct r; simpl in *; subst; reflexivity.
    + rewrite (initialize_success env r s H K F) in N. simpl in N. lia.
  - simpl. rewrite bind_const_state.
    rewrite shutdown_uninitialized by assumption. reflexivity.
Qed.

Lemma run_without_building cs : forall r s,
  _initialized r = false ->
  builds_nothing cs (r, s) = true ->
  fst (run cs (r, s)) = r.
Proof.
  induction cs as [|c cs IH]; intros r s H P; simpl; [reflexivity|].
  simpl in P. apply andb_true_iff in P as [Pc P].
  apply Nat.eqb_eq in Pc.
  pose proof (call_without_building c r s H Pc) as E.
  destruct (snd (call c (r, s))) as [r' s']. simpl in E. subst r'.
  apply IH; assumption.
Qed.

Lemma get_agent_keeps_counter agent_name r s :
  next_oid (snd (snd (get_agent agent_name (r, s)))) = next_oid s.
Proof.
  destruct (_initialized r) eqn:H.
  - destruct (dict_get (lower agent_name) (_agents r)) eqn:G.
    + erewrite get_agent_found; eauto.
    + rewrite get_agent_missing; auto.
  - rewrite get_agent_uninitialized; auto.
Qed.

Lemma fmap_state {A B} (f : A -> B) (m : M A) st :
  snd ((f <$> m) st) = snd (m st).
Proof. unfold fmap, M_fmap. destruct (m st) as [[a|e] st']; reflexivity. Qed.

Lemma only_initialize_builds c st :
  built c st <> 0 -> exists env, c = CInitialize env.
Proof.
  destruct st as [r s]. unfold built. intros N.
  destruct c; eauto; exfalso; apply N; simpl.
  - rewrite fmap_state, get_agent_keeps_counter. apply Nat.sub_diag.
  - rewrite fmap_state. unfold get_auditor.
    rewrite get_agent_keeps_counter. apply Nat.sub_diag.
  - rewrite fmap_state. unfold get_fixer.
    rewrite get_agent_keeps_counter. apply Nat.sub_diag.
  - rewrite fmap_state. unfold get_judge.
    rewrite get_agent_keeps_counter. apply Nat.sub_diag.
  - apply Nat.sub_diag.
  - apply Nat.sub_diag.
  - rewrite bind_const_state. destruct (_initialized r) eqn:H.
    + rewrite shutdown_ready by assumption. apply Nat.sub_diag.
    + rewrite shutdown_uninitialized by assumption. apply Nat.sub_diag.
Qed.

(** C10, as the code has it.  Let an [initialize] on a registry whose flag
    is false fail at the fixer's or the judge's construction.  Then the flag
    is false and the auditor stays bound; [shutdown] returns without
    changing anything; [list_agents] shows the leftover names; no sequence
    of calls changes the registry unless one of them builds an agent, which
    only an [initialize] does; and an [initialize] that returns normally
    binds all three names to the instances it has just built. *)
Theorem C10_leftovers_survive_shutdown
    (env : Env) (r : Registry) (s : Sys) (k : AgentKind) (e : exn) :
  _initialized r = false ->
  truthy (GOOGLE_API_KEY env) = true ->
  first_raise env = Some (k, e) ->
  k <> Auditor ->
  let st := snd (initialize env (r, s)) in
  _initialized (fst st) = false /\
  shutdown st = (Ok tt, st) /\
  list_agents st = (Ok (dict_keys (_agents (fst st))), st) /\
  In "auditor" (dict_keys (_agents (fst st))) /\
  (forall cs s',
     builds_nothing cs (fst st, s') = true ->
     fst (run cs (fst st, s')) = fst st) /\
  (forall c st', built c st' <> 0 -> exists env', c = CInitialize env') /\
  (forall env' s',
     fst (initialize env' (fst st, s')) = Ok tt ->
     let d := _agents (fst (snd (initialize env' (fst st, s')))) in
     dict_get "auditor" d = Some (mk_agent Auditor (next_oid s')) /\
     dict_get "fixer" d = Some (mk_agent Fixer (S (next_oid s'))) /\
     dict_get "judge" d = Some (mk_agent Judge (S (S (next_oid s'))))).
Proof.
  intros H K F N st. unfold st.
  erewrite initialize_ctor_raises by eassumption. simpl.
  split; [reflexivity|].
  split; [apply shutdown_uninitialized; reflexivity|].
  split; [reflexivity|].
  split.
  { destruct k; [congruence| |]; simpl.
    - apply dict_set_has_key.
    - apply dict_set_keeps_key, dict_set_has_key. }
  split.
  { intros cs s' P. apply run_without_building; [reflexivity | exact P]. }
  split; [intros c st' B; eapply only_initialize_builds; exact B|].
  intros env' s' R.
  apply initialize_ok_inv in R as [K' F']; [|reflexivity].
  rewrite initialize_success by auto. simpl. unfold stored_all. simpl.
  split; [|split].
  - rewrite !dict_get_set_ne by discriminate. apply dict_get_set_eq.
  - rewrite dict_get_set_ne by discriminate. apply dict_get_set_eq.
  - apply dict_get_set_eq.
Qed.

Lemma C10_witness :
  let st := snd (initialize env_fixer_raises (AgentRegistry__init__, fresh_sys)) in
  _initialized (fst st) = false /\
  shutdown st = (Ok tt, st) /\
  list_agents st = (Ok ["auditor"], st) /\
  fst (run [CShutdown; CListAgents; CInitialize env_no_key] st) = fst st /\
  _agents (fst (snd (initialize env_ok st)))
    = [("auditor", mk_agent Auditor 1); ("fixer", mk_agent Fixer 2);
       ("judge", mk_agent Judge 3)].
Proof.
  pose proof (C10_leftovers_survive_shutdown
                env_fixer_raises AgentRegistry__init__ fresh_sys Fixer boom
                eq_refl eq_refl eq_refl ltac:(discriminate))
    as (H1 & H2 & H3 & _ & H5 & _).
  split; [exact H1|]. split; [exact H2|]. split; [exact H3|].
  split; [|reflexivity].
  apply (H5 [CShutdown; CListAgents; CInitialize env_no_key]).
  reflexivity.
Defined.

(** C10 as stated fails in its last part: after the failed attempt and a
    [shutdown], a second attempt that fails again at the fixer has already
    replaced the leftover auditor by a new instance. *)
Lemma C10_counterexample :
  let st1 := snd (initialize env_fixer_raises (AgentRegistry__init__, fresh_sys)) in
  let st2 := snd (shutdown st1) in
  let out := initialize env_fixer_raises st2 in
  st2 = st1 /\
  fst out = Raise boom /\
  _initialized (fst (snd out)) = false /\
  _agents (fst st1) = [("auditor", mk_agent Auditor 0)] /\
  _agents (fst (snd out)) = [("auditor", mk_agent Auditor 1)] /\
  _agents (fst (snd out)) <> _agents (fst st1).
Proof.
  simpl. repeat split. discriminate.
Qed.

(** * Further properties of the registry *)

Lemma call_lookup c agent_name st :
  looked_up c = Some agent_name ->
  call c st = (value_of_lookup <$> get_agent agent_name) st.
Proof. destruct c; simpl; intros E; try discriminate E; injection E as <-; reflexivity. Qed.

Lemma get_agent_state agent_name r s :
  snd (get_agent agent_name (r, s)) =
    (r, mk_sys (next_oid s)
          (trace s ++
           if _initialized r
           then match dict_get (lower agent_name) (_agents r) with
                | Some _ => []
                | None => miss_events agent_name (_agents r)
                end
           else [])).
Proof.
  destruct s as [n t]. destruct (_initialized r) eqn:H.
  - destruct (dict_get (lower agent_name) (_agents r)) eqn:G.
    + erewrite get_agent_found by eassumption. simpl. rewrite app_nil_r. reflexivity.
    + rewrite get_agent_missing by assumption. reflexivity.
  - rewrite get_agent_uninitialized by assumption. simpl.
    rewrite app_nil_r. reflexivity.
Qed.

Lemma first_raise_none env :
  first_raise env = None <-> forall k, ctor_raises env k = None.
Proof.
  unfold first_raise. split.
  - intros F k.
    destruct (ctor_raises env Auditor) eqn:A; [discriminate|].
    destruct (ctor_raises env Fixer) eqn:B; [discriminate|].
    destruct (ctor_raises env Judge) eqn:C; [discriminate|].
    destruct k; assumption.
  - intros N. rewrite !N. reflexivity.
Qed.

(** ** X1: success of [initialize] and the flag *)

Lemma initialize_ok_iff_ready env r s :
  fst (initialize env (r, s)) = Ok tt
  <-> _initialized (fst (snd (initialize env (r, s)))) = true.
Proof.
  destruct (_initialized r) eqn:H.
  { rewrite initialize_ready by assumption. simpl. tauto. }
  destruct (truthy (GOOGLE_API_KEY env)) eqn:K.
  2:{ rewrite initialize_no_key by assumption. simpl. rewrite H.
      split; discriminate. }
  destruct (first_raise env) as [[k e]|] eqn:F.
  - erewrite initialize_ctor_raises by eassumption. simpl. split; discriminate.
  - rewrite initialize_success by assumption. simpl. tauto.
Qed.



(** ** X2: when an attempt succeeds *)

(** X2.  On a registry whose flag is false, [initialize] returns normally
    exactly when the credential is set to a non-empty string and none of the
    three constructors raises. *)
Theorem X2_attempt_succeeds_iff_credential_and_constructors_allow
    (env : Env) (r : Registry) (s : Sys) :
  _initialized r = false ->
  (fst (initialize env (r, s)) = Ok tt
   <-> (exists key, GOOGLE_API_KEY env = Some key /\ key <> "")
       /\ forall k, ctor_raises env k = None).
Proof.
  intros H. split.
  - intros R. apply initialize_ok_inv in R as [K F]; [|exact H].
    split; [|apply first_raise_none, F].
    unfold truthy in K. destruct (GOOGLE_API_KEY env) as [key|]; [|discriminate].
    exists key. split; [reflexivity|].
    intros ->. discriminate K.
  - intros [(key & E & N) C].
    rewrite initialize_success; [reflexivity | exact H | | apply first_raise_none, C].
    unfold truthy. rewrite E. apply String.eqb_neq in N. rewrite N. reflexivity.
Qed.

Lemma X2_witness :
  fst (initialize env_ok (AgentRegistry__init__, fresh_sys)) = Ok tt
  /\ fst (initialize env_empty_key (AgentRegistry__init__, fresh_sys)) <> Ok tt.
Proof.
  pose proof (X2_attempt_succeeds_iff_credential_and_constructors_allow
                env_ok AgentRegistry__init__ fresh_sys eq_refl) as [_ B].
  pose proof (X2_attempt_succeeds_iff_credential_and_constructors_allow
                env_empty_key AgentRegistry__init__ fresh_sys eq_refl) as [A _].
  split.
  - apply B. split; [|reflexivity]. exists "secret". split; [reflexivity | discriminate].
  - intros R. destruct (A R) as [(key & E & N) _].
    injection E as <-. apply N. reflexivity.
Defined.

(** ** X3: the empty credential *)

(** X3.  A credential variable that is set to the empty string is treated
    as a missing one: on a registry whose flag is false [initialize] raises
    the configuration error, runs no constructor and leaves the registry as
    it was. *)
Theorem X3_empty_credential_is_rejected
    (env : Env) (r : Registry) (s : Sys) :
  _initialized r = false ->
  GOOGLE_API_KEY env = Some "" ->
  fst (initialize env (r, s)) = Raise ConfigurationError /\
  fst (snd (initialize env (r, s))) = r /\
  constructions (trace (snd (snd (initialize env (r, s)))))
    = constructions (trace s) /\
  initialize env (r, s)
    = initialize (mk_env None (ctor_raises env)) (r, s).
Proof.
  intros H K.
  rewrite (initialize_no_key env) by (rewrite ?K; auto).
  rewrite (initialize_no_key (mk_env None (ctor_raises env))) by auto.
  simpl. repeat split.
  rewrite constructions_app. simpl. apply app_nil_r.
Qed.

Lemma X3_witness :
  fst (initialize env_empty_key (AgentRegistry__init__, fresh_sys))
    = Raise ConfigurationError /\
  fst (snd (initialize env_empty_key (AgentRegistry__init__, fresh_sys)))
    = AgentRegistry__init__ /\
  constructions
    (trace (snd (snd (initialize env_empty_key (AgentRegistry__init__, fresh_sys)))))
    = [] /\
  initialize env_empty_key (AgentRegistry__init__, fresh_sys)
    = initialize env_no_key (AgentRegistry__init__, fresh_sys).
Proof.
  apply (X3_empty_credential_is_rejected
           env_empty_key AgentRegistry__init__ fresh_sys); reflexivity.
Defined.

(** ** X4: constructors run in order *)

Lemma constructions_attempt k e :
  constructions (attempt_events k ++ handled e) = constructors_run (Some (k, e)).
Proof.
  rewrite constructions_app. unfold handled.
  destruct k, (exn_is_Exception e); reflexivity.
Qed.

(** X4.  One [initialize] runs the constructors in the order auditor,
    fixer, judge, each at most once, and stops at the first that raises.
    It runs none when the flag is already true or the credential is missing
    or empty. *)
Theorem X4_constructors_run_in_order_until_one_raises
    (env : Env) (r : Registry) (s : Sys) :
  constructions (trace (snd (snd (initialize env (r, s))))) =
    (constructions (trace s) ++
     if _initialized r || negb (truthy (GOOGLE_API_KEY env))
     then []
     else constructors_run (first_raise env))%list.
Proof.
  destruct (_initialized r) eqn:H; simpl.
  { rewrite initialize_ready by assumption. simpl.
    rewrite constructions_app. reflexivity. }
  destruct (truthy (GOOGLE_API_KEY env)) eqn:K; simpl.
  2:{ rewrite initialize_no_key by assumption. simpl.
      rewrite constructions_app. reflexivity. }
  destruct (first_raise env) as [[k e]|] eqn:F.
  - erewrite initialize_ctor_raises by eassumption. simpl.
    rewrite constructions_app, constructions_attempt. reflexivity.
  - rewrite initialize_success by assumption. simpl.
    rewrite constructions_app. reflexivity.
Qed.

(** ** X5: what a failed attempt logs *)

Lemma log_entries_attempt k e :
  log_entries (attempt_events k ++ handled e)
  = if exn_is_Exception e then [failure_entry e] else [].
Proof.
  rewrite log_entries_app. unfold handled.
  destruct k, (exn_is_Exception e); reflexivity.
Qed.

(** X5.  When [initialize] raises [e], the structured log gains exactly one
    entry, of the debug kind and carrying [str(e)], if [e] derives from
    [Exception]; it gains none otherwise (an interrupt raised inside a
    constructor passes through unlogged). *)
Theorem X5_failed_attempt_logs_once_unless_not_an_Exception
    (env : Env) (r : Registry) (s : Sys) (e : exn) :
  fst (initialize env (r, s)) = Raise e ->
  log_entries (trace (snd (snd (initialize env (r, s))))) =
    (log_entries (trace s)
     ++ if exn_is_Exception e then [failure_entry e] else [])%list.
Proof.
  intros R. destruct (_initialized r) eqn:H.
  { rewrite initialize_ready in R by assumption. discriminate R. }
  destruct (truthy (GOOGLE_API_KEY env)) eqn:K.
  2:{ rewrite initialize_no_key in * by assumption. simpl in *.
      injection R as <-. rewrite log_entries_app. reflexivity. }
  destruct (first_raise env) as [[k e']|] eqn:F.
  - rewrite (initialize_ctor_raises env r s k e' H K F) in *. simpl in *.
    injection R as <-. rewrite log_entries_app, log_entries_attempt.
    reflexivity.
  - rewrite initialize_success in R by assumption. discriminate R.
Qed.

Lemma X5_witness :
  log_entries
    (trace (snd (snd (initialize env_fixer_raises (AgentRegistry__init__, fresh_sys)))))
    = [failure_entry boom] /\
  log_entries
    (trace (snd (snd (initialize env_auditor_interrupted
                        (AgentRegistry__init__, fresh_sys)))))
    = [].
Proof.
  split.
  - apply (X5_failed_attempt_logs_once_unless_not_an_Exception
             env_fixer_raises AgentRegistry__init__ fresh_sys boom).
    reflexivity.
  - apply (X5_failed_attempt_logs_once_unless_not_an_Exception
             env_auditor_interrupted AgentRegistry__init__ fresh_sys interrupt).
    reflexivity.
Defined.

(** ** X6: the structured log *)

(** X6.  No call adds more than one entry to the structured log, and the
    lookups, [list_agents] and [is_initialized] add none: only [initialize]
    and [shutdown] ever log. *)
Theorem X6_each_call_logs_at_most_one_entry (c : Call) (st : State) :
  exists l,
    log_entries (trace (snd (snd (call c st))))
      = (log_entries (trace (snd st)) ++ l)%list
    /\ List.length l <= 1
    /\ ((forall env, c <> CInitialize env) -> c <> CShutdown -> l = []).
Proof.
  destruct st as [r s].
  destruct (looked_up c) as [agent_name|] eqn:L.
  { rewrite (call_lookup c agent_name _ L), fmap_state, get_agent_state.
    exists []. simpl. rewrite log_entries_app.
    split; [|split; [lia | reflexivity]].
    f_equal. destruct (_initialized r); [|reflexivity].
    destruct (dict_get (lower agent_name) (_agents r)); reflexivity. }
  destruct c; try discriminate L.
  - simpl call. rewrite bind_const_state.
    destruct (_initialized r) eqn:H.
    { rewrite initialize_ready by assumption. exists []. simpl.
      rewrite log_entries_app. split; [reflexivity|].
      split; [lia|reflexivity]. }
    destruct (truthy (GOOGLE_API_KEY env)) eqn:K.
    2:{ rewrite initialize_no_key by assumption.
        exists [failure_entry ConfigurationError]. simpl.
        rewrite log_entries_app. split; [reflexivity|].
        split; [lia|]. intros N. exfalso. eapply N. reflexivity. }
    destruct (first_raise env) as [[k e]|] eqn:F.
    + erewrite initialize_ctor_raises by eassumption. simpl.
      rewrite log_entries_app, log_entries_attempt.
      eexists. split; [reflexivity|].
      split; [destruct (exn_is_Exception e); simpl; lia|].
      intros N. exfalso. eapply N. reflexivity.
    + rewrite initialize_success by assumption. simpl.
      rewrite log_entries_app.
      eexists. split; [reflexivity|].
      split; [simpl; lia|]. intros N. exfalso. eapply N. reflexivity.
  - exists []. simpl. rewrite app_nil_r. split; [reflexivity|]. split; [lia|reflexivity].
  - exists []. simpl. rewrite app_nil_r. split; [reflexivity|]. split; [lia|reflexivity].
  - simpl call. rewrite bind_const_state.
    destruct (_initialized r) eqn:H.
    + rewrite shutdown_ready by assumption. simpl. rewrite log_entries_app.
      eexists. split; [reflexivity|]. split; [simpl; lia|].
      intros _ N. congruence.
    + rewrite shutdown_uninitialized by assumption. exists []. simpl.
      rewrite app_nil_r. split; [reflexivity|]. split; [lia|reflexivity].
Qed.

(** ** X7: a ready registry is stable *)

Lemma call_on_ready c r s :
  _initialized r = true -> c <> CShutdown -> fst (snd (call c (r, s))) = r.
Proof.
  intros H N. destruct c; try (apply call_frame; congruence).
  simpl. rewrite bind_const_state, initialize_ready by assumption. reflexivity.
Qed.

(** X7.  While the flag is true, only [shutdown] changes the registry:
    after any sequence of calls without a [shutdown], further [initialize]
    calls included, the registry is the very same, so each name keeps the
    instance it was bound to. *)
Theorem X7_ready_registry_changes_only_by_shutdown
    (cs : list Call) (r : Registry) (s : Sys) :
  _initialized r = true ->
  Forall (fun c => c <> CShutdown) cs ->
  fst (run cs (r, s)) = r.
Proof.
  revert s. induction cs as [|c cs IH]; intros s H P; simpl; [reflexivity|].
  apply Forall_cons in P as [Pc P].
  pose proof (call_on_ready c r s H Pc) as E.
  destruct (snd (call c (r, s))) as [r' s']. simpl in E. subst r'.
  apply IH; assumption.
Qed.

Lemma X7_witness :
  let st := snd (initialize env_ok (AgentRegistry__init__, fresh_sys)) in
  fst (run [CGetAgent "nobody"; CInitialize env_fixer_raises; CGetJudge;
            CListAgents] st)
  = fst st.
Proof.
  apply (X7_ready_registry_changes_only_by_shutdown
           [CGetAgent "nobody"; CInitialize env_fixer_raises; CGetJudge;
            CListAgents]
           (fst (snd (initialize env_ok (AgentRegistry__init__, fresh_sys))))
           (snd (snd (initialize env_ok (AgentRegistry__init__, fresh_sys))))).
  - reflexivity.
  - repeat constructor; discriminate.
Defined.

(** ** X8: initialise, then shut down *)

(** X8.  A successful [initialize] followed by [shutdown] leaves the
    registry as [__init__] makes it, flag false and dictionary empty,
    whatever earlier failed attempts had left in the dictionary. *)
Theorem X8_initialize_then_shutdown_gives_the_registry_of_init
    (env : Env) (r : Registry) (s : Sys) :
  fst (initialize env (r, s)) = Ok tt ->
  fst (snd (shutdown (snd (initialize env (r, s))))) = AgentRegistry__init__.
Proof.
  intros R. apply initialize_ok_iff_ready in R.
  destruct (initialize env (r, s)) as [res [r' s']]. simpl in *.
  rewrite shutdown_ready by assumption. reflexivity.
Qed.

Lemma X8_witness :
  let st := snd (initialize env_judge_raises (AgentRegistry__init__, fresh_sys)) in
  dict_keys (_agents (fst st)) = ["auditor"; "fixer"] /\
  fst (snd (shutdown (snd (initialize env_ok st)))) = AgentRegistry__init__.
Proof.
  split; [reflexivity|].
  apply (X8_initialize_then_shutdown_gives_the_registry_of_init env_ok
           (fst (snd (initialize env_judge_raises (AgentRegistry__init__, fresh_sys))))
           (snd (snd (initialize env_judge_raises (AgentRegistry__init__, fresh_sys))))).
  reflexivity.
Defined.

(** ** Classes and identities of the bound instances along any run *)

Ltac split_Forall :=
  unfold well_kinded, bound_below in *;
  repeat match goal with
  | H : Forall _ (_ :: _) |- _ => apply Forall_cons in H as [? H]
  end;
  repeat (apply Forall_cons; split);
  try (apply Forall_nil_2); simpl in *; try lia; auto.

Lemma stored_before_ok k n d :
  leftover_names (dict_keys d) -> well_kinded d -> bound_below n d ->
  well_kinded (stored_before k n d)
  /\ bound_below (count_before k + n) (stored_before k n d).
Proof.
  intros L W B. apply leftover_cases in L.
  destruct L as [-> | [[a ->] | (a & f & ->)]]; destruct k; simpl;
    split; split_Forall.
Qed.

Lemma stored_all_exact n d :
  leftover_names (dict_keys d) ->
  stored_all n d =
    [("auditor", mk_agent Auditor n); ("fixer", mk_agent Fixer (S n));
     ("judge", mk_agent Judge (S (S n)))].
Proof.
  intros L. apply leftover_cases in L.
  destruct L as [-> | [[a ->] | (a & f & ->)]]; reflexivity.
Qed.

Lemma initialize_registry_ok env st :
  registry_ok st -> registry_ok (snd (initialize env st)).
Proof.
  destruct st as [r s]. intros (I & W & B). simpl in *.
  split; [apply initialize_inv, I|].
  destruct (_initialized r) eqn:H.
  { rewrite initialize_ready by assumption. simpl. auto. }
  unfold registry_inv in I. rewrite H in I.
  destruct (truthy (GOOGLE_API_KEY env)) eqn:K.
  2:{ rewrite initialize_no_key by assumption. simpl. auto. }
  destruct (first_raise env) as [[k e]|] eqn:F.
  - erewrite initialize_ctor_raises by eassumption. simpl.
    apply stored_before_ok; assumption.
  - rewrite initialize_success by assumption. simpl.
    rewrite stored_all_exact by assumption. split; split_Forall.
Qed.

Lemma call_registry_ok c st :
  registry_ok st -> registry_ok (snd (call c st)).
Proof.
  destruct st as [r s]. intros O.
  destruct (looked_up c) as [agent_name|] eqn:L.
  { rewrite (call_lookup c agent_name _ L), fmap_state, get_agent_state.
    exact O. }
  destruct c; try discriminate L; try exact O.
  - simpl call. rewrite bind_const_state. apply initialize_registry_ok, O.
  - simpl call. rewrite bind_const_state.
    destruct (_initialized r) eqn:H.
    + rewrite shutdown_ready by assumption.
      simpl. split; [left; reflexivity|]. split; constructor.
    + rewrite shutdown_uninitialized by assumption. exact O.
Qed.

Lemma run_registry_ok cs : forall st,
  registry_ok st -> registry_ok (run cs st).
Proof.
  induction cs as [|c cs IH]; intros st O; simpl; [exact O|].
  apply IH, call_registry_ok, O.
Qed.

Lemma fresh_registry_ok s : registry_ok (AgentRegistry__init__, s).
Proof. split; [apply fresh_inv|]. split; constructor. Qed.

Lemma key_of_inj k1 k2 : key_of k1 = key_of k2 -> k1 = k2.
Proof. destruct k1, k2; simpl; intros E; try reflexivity; discriminate E. Qed.

Lemma ready_shape r :
  registry_inv r -> well_kinded (_agents r) -> _initialized r = true ->
  exists a f j,
    _agents r = [("auditor", a); ("fixer", f); ("judge", j)]
    /\ agent_kind a = Auditor /\ agent_kind f = Fixer /\ agent_kind j = Judge.
Proof.
  intros I W H. unfold registry_inv in I. rewrite H in I.
  destruct (_agents r) as [|[k1 a] [|[k2 f] [|[k3 j] [|]]]]; try discriminate I.
  injection I as -> -> ->. exists a, f, j.
  split; [reflexivity|]. split_Forall.
  repeat split; apply key_of_inj; simpl; auto.
Qed.

(** ** X9: the flag and the three names *)

(** X9.  After every sequence of calls on a new registry, [is_initialized]
    returns true exactly when [list_agents] returns the three names
    [auditor], [fixer], [judge]: fewer names mean a failed attempt, never a
    ready registry. *)
Theorem X9_is_initialized_iff_three_names_listed (cs : list Call) (s : Sys) :
  let st := run cs (AgentRegistry__init__, s) in
  fst (is_initialized st) = Ok true
  <-> fst (list_agents st) = Ok ["auditor"; "fixer"; "judge"].
Proof.
  intros st.
  pose proof (run_inv cs (AgentRegistry__init__, s) fresh_inv) as I.
  fold st in I. destruct st as [r s']. simpl in *.
  unfold registry_inv in I. unfold mbind, M_bind, read_agents, mret, M_ret.
  simpl. destruct (_initialized r) eqn:H.
  - rewrite I. tauto.
  - split; [discriminate|]. intros E. injection E as E.
    destruct I as [I | [I | I]]; rewrite I in E; discriminate E.
Qed.

(** ** X10: what a ready registry hands out *)

(** X10.  After every sequence of calls on a new registry, if the flag is
    true then [get_auditor], [get_fixer] and [get_judge] each return an
    instance, never the absent result, of the auditor, fixer and judge
    class respectively, and change nothing. *)
Theorem X10_ready_registry_hands_out_an_agent_of_each_class
    (cs : list Call) (s : Sys) :
  let st := run cs (AgentRegistry__init__, s) in
  _initialized (fst st) = true ->
  exists a f j,
    agent_kind a = Auditor /\ agent_kind f = Fixer /\ agent_kind j = Judge
    /\ get_auditor st = (Ok (Some a), st)
    /\ get_fixer st = (Ok (Some f), st)
    /\ get_judge st = (Ok (Some j), st).
Proof.
  intros st H.
  pose proof (run_registry_ok cs _ (fresh_registry_ok s)) as (I & W & _).
  fold st in I, W. destruct st as [r s']. simpl in *.
  destruct (ready_shape r I W H) as (a & f & j & D & Ka & Kf & Kj).
  exists a, f, j. repeat split; try assumption;
    apply get_agent_found; try assumption; rewrite D; reflexivity.
Qed.

Lemma X10_witness :
  let st := run [CInitialize env_fixer_raises; CShutdown; CInitialize env_ok]
              (AgentRegistry__init__, fresh_sys) in
  exists a f j,
    agent_kind a = Auditor /\ agent_kind f = Fixer /\ agent_kind j = Judge
    /\ get_auditor st = (Ok (Some a), st)
    /\ get_fixer st = (Ok (Some f), st)
    /\ get_judge st = (Ok (Some j), st).
Proof.
  apply (X10_ready_registry_hands_out_an_agent_of_each_class
           [CInitialize env_fixer_raises; CShutdown; CInitialize env_ok]
           fresh_sys).
  reflexivity.
Defined.

(** ** X17: the names that resolve *)

(** X17.  After every sequence of calls on a new registry, if the flag is
    true then [get_agent] returns an instance exactly for the names that
    lowercase to [auditor], [fixer] or [judge]; every other name, the empty
    one included, gets the absent result. *)
Theorem X17_only_the_three_names_resolve
    (cs : list Call) (s : Sys) (agent_name : string) :
  let st := run cs (AgentRegistry__init__, s) in
  _initialized (fst st) = true ->
  ((exists a, fst (get_agent agent_name st) = Ok (Some a))
   <-> lower agent_name = "auditor" \/ lower agent_name = "fixer"
       \/ lower agent_name = "judge")
  /\ (fst (get_agent agent_name st) = Ok None
      <-> lower agent_name <> "auditor" /\ lower agent_name <> "fixer"
          /\ lower agent_name <> "judge").
Proof.
  intros st H.
  pose proof (run_registry_ok cs _ (fresh_registry_ok s)) as (I & W & _).
  fold st in I, W. destruct st as [r s']. simpl in *.
  destruct (ready_shape r I W H) as (a & f & j & D & _).
  assert (G : dict_get (lower agent_name) (_agents r) =
              if String.eqb (lower agent_name) "auditor" then Some a
              else if String.eqb (lower agent_name) "fixer" then Some f
              else if String.eqb (lower agent_name) "judge" then Some j
              else None).
  { rewrite D. reflexivity. }
  destruct (String.eqb_spec (lower agent_name) "auditor") as [E1|E1].
  { rewrite (get_agent_found agent_name r s' a H G). simpl.
    split; split; eauto; try discriminate. intros [N _]. contradiction. }
  destruct (String.eqb_spec (lower agent_name) "fixer") as [E2|E2].
  { rewrite (get_agent_found agent_name r s' f H G). simpl.
    split; split; eauto; try discriminate. intros (_ & N & _). contradiction. }
  destruct (String.eqb_spec (lower agent_name) "judge") as [E3|E3].
  { rewrite (get_agent_found agent_name r s' j H G). simpl.
    split; split; eauto; try discriminate. intros (_ & _ & N). contradiction. }
  rewrite (get_agent_missing agent_name r s' H G). simpl.
  split; split; auto.
  - intros [x X]. discriminate X.
  - intros [N | [N | N]]; contradiction.
Qed.

Lemma X17_witness :
  let st := snd (initialize env_ok (AgentRegistry__init__, fresh_sys)) in
  (exists a, fst (get_agent "JuDgE" st) = Ok (Some a)) /\
  fst (get_agent "" st) = Ok None /\
  fst (get_agent " auditor" st) = Ok None.
Proof.
  pose proof (X17_only_the_three_names_resolve [CInitialize env_ok] fresh_sys
                "JuDgE" eq_refl) as [[_ A] _].
  pose proof (X17_only_the_three_names_resolve [CInitialize env_ok] fresh_sys
                "" eq_refl) as [_ [_ B]].
  pose proof (X17_only_the_three_names_resolve [CInitialize env_ok] fresh_sys
                " auditor" eq_refl) as [_ [_ C]].
  split; [apply A; right; right; reflexivity|].
  split; [apply B | apply C]; repeat split; discriminate.
Defined.

(** ** X11: an attempt after failures *)

(** X11.  After every sequence of calls on a new registry that leaves the
    flag false, an [initialize] with the credential present and no
    constructor raising returns normally and binds the three names, in
    order, to the three instances it has just built; no instance bound
    before the call is bound after it. *)
Theorem X11_successful_attempt_rebinds_all_three_names
    (cs : list Call) (s : Sys) (env : Env) :
  let st := run cs (AgentRegistry__init__, s) in
  let n := next_oid (snd st) in
  _initialized (fst st) = false ->
  truthy (GOOGLE_API_KEY env) = true ->
  first_raise env = None ->
  fst (initialize env st) = Ok tt /\
  fst (snd (initialize env st)) =
    mk_registry
      [("auditor", mk_agent Auditor n); ("fixer", mk_agent Fixer (S n));
       ("judge", mk_agent Judge (S (S n)))] true /\
  (forall b b', In b (_agents (fst st)) ->
     In b' (_agents (fst (snd (initialize env st)))) -> snd b <> snd b').
Proof.
  intros st n H K F.
  pose proof (run_registry_ok cs _ (fresh_registry_ok s)) as (I & _ & B).
  fold st in I, B. subst n. destruct st as [r s']. simpl in *.
  unfold registry_inv in I. rewrite H in I.
  rewrite initialize_success by assumption. simpl.
  rewrite stored_all_exact by assumption.
  split; [reflexivity|]. split; [reflexivity|].
  intros b b' Hb Hb' E.
  unfold bound_below in B. rewrite Forall_forall in B.
  apply list_elem_of_In, B in Hb. rewrite E in Hb.
  simpl in Hb'. destruct Hb' as [<- | [<- | [<- | []]]]; simpl in Hb; lia.
Qed.

Lemma X11_witness :
  let st := run [CInitialize env_judge_raises; CShutdown]
              (AgentRegistry__init__, fresh_sys) in
  _agents (fst st) = [("auditor", mk_agent Auditor 0); ("fixer", mk_agent Fixer 1)] /\
  fst (initialize env_ok st) = Ok tt /\
  fst (snd (initialize env_ok st)) =
    mk_registry
      [("auditor", mk_agent Auditor 2); ("fixer", mk_agent Fixer 3);
       ("judge", mk_agent Judge 4)] true.
Proof.
  pose proof (X11_successful_attempt_rebinds_all_three_names
                [CInitialize env_judge_raises; CShutdown] fresh_sys env_ok
                eq_refl eq_refl eq_refl) as (R & D & _).
  split; [reflexivity|]. split; [exact R | exact D].
Defined.

(** ** X12: what a successful attempt reports *)

(** X12.  Under the same conditions the console line and the log entry of
    the successful attempt always report three agents and the names
    [auditor], [fixer], [judge], also when earlier failed attempts had left
    bindings behind. *)
Theorem X12_successful_attempt_reports_three_agents
    (cs : list Call) (s : Sys) (env : Env) :
  let st := run cs (AgentRegistry__init__, s) in
  _initialized (fst st) = false ->
  truthy (GOOGLE_API_KEY env) = true ->
  first_raise env = None ->
  trace (snd (snd (initialize env st))) =
    (trace (snd st) ++ attempt_events Judge ++
     [EPrint "✅ Agent Registry initialized with 3 agents";
      ELog (mk_log "AgentRegistry" "N/A" ANALYSIS
              [("input_prompt", "Agent registry initialization");
               ("output_response",
                "Successfully loaded 3 agents: ['auditor', 'fixer', 'judge']")])])%list.
Proof.
  intros st H K F.
  pose proof (run_inv cs (AgentRegistry__init__, s) fresh_inv) as I.
  fold st in I. destruct st as [r s']. simpl in *.
  unfold registry_inv in I. rewrite H in I.
  rewrite initialize_success by assumption. simpl trace.
  rewrite stored_all_exact by assumption. reflexivity.
Qed.

Lemma X12_witness :
  let st := run [CInitialize env_fixer_raises]
              (AgentRegistry__init__, fresh_sys) in
  log_entries (trace (snd (snd (initialize env_ok st)))) =
    [failure_entry boom;
     mk_log "AgentRegistry" "N/A" ANALYSIS
       [("input_prompt", "Agent registry initialization");
        ("output_response",
         "Successfully loaded 3 agents: ['auditor', 'fixer', 'judge']")]].
Proof.
  pose proof (X12_successful_attempt_reports_three_agents
                [CInitialize env_fixer_raises] fresh_sys env_ok
                eq_refl eq_refl eq_refl) as T.
  exact (f_equal log_entries T).
Defined.

(** * Further properties of the module *)

Lemma stored_before_kinded k n d :
  leftover_names (dict_keys d) -> well_kinded d ->
  well_kinded (stored_before k n d).
Proof.
  intros L W. apply leftover_cases in L.
  destruct L as [-> | [[a ->] | (a & f & ->)]]; destruct k; simpl; split_Forall.
Qed.

Lemma call_kinded c r s :
  registry_inv r /\ well_kinded (_agents r) ->
  registry_inv (fst (snd (call c (r, s))))
  /\ well_kinded (_agents (fst (snd (call c (r, s))))).
Proof.
  intros [I W]. split; [apply call_inv, I|].
  destruct c; try (rewrite call_frame by congruence; exact W).
  - simpl call. rewrite bind_const_state.
    destruct (_initialized r) eqn:H.
    { rewrite initialize_ready by assumption. exact W. }
    unfold registry_inv in I. rewrite H in I.
    destruct (truthy (GOOGLE_API_KEY env)) eqn:K.
    2:{ rewrite initialize_no_key by assumption. exact W. }
    destruct (first_raise env) as [[k e]|] eqn:F.
    + erewrite initialize_ctor_raises by eassumption. simpl.
      apply stored_before_kinded; assumption.
    + rewrite initialize_success by assumption. simpl.
      rewrite stored_all_exact by assumption. split_Forall.
  - simpl call. rewrite bind_const_state.
    destruct (_initialized r) eqn:H.
    + rewrite shutdown_ready by assumption. constructor.
    + rewrite shutdown_uninitialized by assumption. exact W.
Qed.

Lemma invoke_call_world_ok l c w :
  world_ok w -> world_ok (snd (invoke l (call c) w)).
Proof.
  intros [G F]. unfold invoke.
  destruct (heap w !! l) as [r|] eqn:L; [|split; assumption].
  pose proof (call_kinded c r (sys w)) as P.
  destruct (call c (r, sys w)) as [res [r' s']]. simpl in *.
  split.
  - unfold world_ok. simpl. rewrite length_insert. exact G.
  - simpl. apply Forall_insert; [exact F|]. apply P.
    rewrite Forall_forall in F. apply F.
    apply list_elem_of_lookup. eauto.
Qed.

Lemma new_world_ok w : world_ok w -> world_ok (snd (new_AgentRegistry w)).
Proof.
  intros [G F]. split; simpl.
  - destruct (_registry_instance w); [|exact I].
    rewrite length_app. simpl. lia.
  - apply Forall_app. split; [exact F|].
    repeat constructor.
Qed.

Lemma get_registry_world_ok w : world_ok w -> world_ok (snd (get_registry w)).
Proof.
  intros O. unfold get_registry.
  destruct (_registry_instance w) eqn:E; [exact O|].
  destruct O as [_ F]. split; simpl.
  - rewrite length_app. simpl. lia.
  - apply Forall_app. split; [exact F|]. repeat constructor.
Qed.

Lemma invoke_lookup_world_ok l agent_name w :
  world_ok w -> world_ok (snd (invoke l (get_agent agent_name) w)).
Proof.
  intros O.
  pose proof (invoke_call_world_ok l (CGetAgent agent_name) w O) as P.
  unfold invoke in *. destruct (heap w !! l) as [r|]; [|exact O].
  simpl in P. unfold fmap, M_fmap in P.
  destruct (get_agent agent_name (r, sys w)) as [[o|e] [r' s']]; exact P.
Qed.

Lemma exec_world_ok st w : world_ok w -> world_ok (exec st w).
Proof.
  intros O. destruct st; simpl.
  - apply new_world_ok, O.
  - apply get_registry_world_ok, O.
  - apply invoke_call_world_ok, O.
  - unfold get_auditor_agent, get_auditor.
    destruct (get_registry w) as [l w'] eqn:E.
    apply invoke_lookup_world_ok.
    change w' with (snd (l, w')). rewrite <- E. apply get_registry_world_ok, O.
  - unfold get_fixer_agent, get_fixer.
    destruct (get_registry w) as [l w'] eqn:E.
    apply invoke_lookup_world_ok.
    change w' with (snd (l, w')). rewrite <- E. apply get_registry_world_ok, O.
  - unfold get_judge_agent, get_judge.
    destruct (get_registry w) as [l w'] eqn:E.
    apply invoke_lookup_world_ok.
    change w' with (snd (l, w')). rewrite <- E. apply get_registry_world_ok, O.
Qed.

Lemma exec_all_world_ok p : forall w, world_ok w -> world_ok (exec_all p w).
Proof.
  induction p as [|st p IH]; intros w O; simpl; [exact O|].
  apply IH, exec_world_ok, O.
Qed.

Lemma module_loaded_ok s : world_ok (module_loaded s).
Proof. split; [exact I | constructor]. Qed.

(** A lookup through a reference that is ready, or not. *)
Lemma invoke_lookup_uninitialized l agent_name w r :
  heap w !! l = Some r -> _initialized r = false ->
  invoke l (get_agent agent_name) w = (Some (Raise NotInitializedError), w).
Proof.
  intros L H. unfold invoke. rewrite L.
  rewrite get_agent_uninitialized by assumption.
  rewrite list_insert_id by assumption. destruct w; reflexivity.
Qed.

Lemma invoke_lookup_found l agent_name w r a :
  heap w !! l = Some r -> _initialized r = true ->
  dict_get (lower agent_name) (_agents r) = Some a ->
  invoke l (get_agent agent_name) w = (Some (Ok (Some a)), w).
Proof.
  intros L H G. unfold invoke. rewrite L.
  erewrite get_agent_found by eassumption.
  rewrite list_insert_id by assumption. destruct w; reflexivity.
Qed.

Lemma shared_registry_exists w l :
  world_ok w -> _registry_instance w = Some l ->
  exists r, heap w !! l = Some r /\ registry_inv r /\ well_kinded (_agents r).
Proof.
  intros [G F] E. rewrite E in G.
  destruct (lookup_lt_is_Some_2 (heap w) l G) as [r L].
  exists r. split; [exact L|].
  rewrite Forall_forall in F. apply F, list_elem_of_lookup. eauto.
Qed.

(** ** X13: the convenience accessors *)



(** ** X14: an accessor before [get_registry] *)

(** X14.  While no shared registry exists, each convenience accessor
    raises the not-initialised error and, as a side effect, leaves behind
    the shared registry that [get_registry] would have created: a new
    un-initialised one.  Nothing is printed, logged or constructed. *)
Theorem X14_accessor_without_shared_registry_creates_it_and_raises
    (w : World) :
  _registry_instance w = None ->
  get_auditor_agent w = (Some (Raise NotInitializedError), snd (get_registry w)) /\
  get_fixer_agent w = (Some (Raise NotInitializedError), snd (get_registry w)) /\
  get_judge_agent w = (Some (Raise NotInitializedError), snd (get_registry w)) /\
  shared_registry (snd (get_registry w)) = Some AgentRegistry__init__ /\
  sys (snd (get_registry w)) = sys w.
Proof.
  intros E.
  assert (L : heap (snd (get_registry w)) !! List.length (heap w)
              = Some AgentRegistry__init__).
  { unfold get_registry. rewrite E. simpl.
    apply list_lookup_middle. reflexivity. }
  assert (G : get_registry w = (List.length (heap w), snd (get_registry w))).
  { unfold get_registry. rewrite E. reflexivity. }
  unfold get_auditor_agent, get_fixer_agent, get_judge_agent,
    get_auditor, get_fixer, get_judge.
  rewrite G. simpl snd.
  repeat split;
    try (eapply invoke_lookup_uninitialized; [exact L | reflexivity]).
  - unfold shared_registry, get_registry. rewrite E. simpl.
    apply list_lookup_middle. reflexivity.
  - unfold get_registry. rewrite E. reflexivity.
Qed.

Lemma X14_witness :
  get_fixer_agent (module_loaded fresh_sys)
    = (Some (Raise NotInitializedError),
       mk_world [AgentRegistry__init__] (Some 0) fresh_sys).
Proof.
  pose proof (X14_accessor_without_shared_registry_creates_it_and_raises
                (module_loaded fresh_sys) eq_refl) as (_ & F & _).
  exact F.
Defined.

(** ** X15: registries do not share state *)



(** ** X16: initialising through the shared registry *)

(** X16.  From every reachable world in which the shared registry is
    absent or not ready, [get_registry().initialize()] with the credential
    present and no constructor raising returns normally, and afterwards the
    three convenience accessors return the three instances that call
    built. *)
Theorem X16_initialize_through_get_registry_serves_the_accessors
    (p : list Stmt) (s : Sys) (env : Env) :
  let w := exec_all p (module_loaded s) in
  let l := fst (get_registry w) in
  let n := next_oid (sys w) in
  let out := invoke l (initialize env) (snd (get_registry w)) in
  (forall r, shared_registry w = Some r -> _initialized r = false) ->
  truthy (GOOGLE_API_KEY env) = true ->
  first_raise env = None ->
  fst out = Some (Ok tt) /\
  get_auditor_agent (snd out) = (Some (Ok (Some (mk_agent Auditor n))), snd out) /\
  get_fixer_agent (snd out) = (Some (Ok (Some (mk_agent Fixer (S n)))), snd out) /\
  get_judge_agent (snd out)
    = (Some (Ok (Some (mk_agent Judge (S (S n))))), snd out).
Proof.
  intros w l n out U K F.
  pose proof (exec_all_world_ok p _ (module_loaded_ok s)) as O. fold w in O.
  pose proof (get_registry_world_ok w O) as O1.
  pose proof (get_registry_sets_instance w) as E1. fold l in E1.
  destruct (shared_registry_exists _ l O1 E1) as (r & L & I & _).
  assert (H : _initialized r = false).
  { unfold shared_registry in U. unfold l, get_registry in L.
    destruct (_registry_instance w) as [l0|] eqn:E; simpl in L.
    - apply U. exact L.
    - rewrite list_lookup_middle in L by reflexivity.
      injection L as <-. reflexivity. }
  assert (S1 : sys (snd (get_registry w)) = sys w).
  { unfold get_registry. destruct (_registry_instance w); reflexivity. }
  unfold registry_inv in I. rewrite H in I.
  assert (Lt : l < List.length (heap (snd (get_registry w)))).
  { apply lookup_lt_is_Some_1. eauto. }
  unfold out, invoke. rewrite L.
  rewrite initialize_success by assumption.
  rewrite stored_all_exact by assumption. rewrite S1. fold n. simpl.
  split; [reflexivity|].
  unfold get_auditor_agent, get_fixer_agent, get_judge_agent,
    get_auditor, get_fixer, get_judge.
  rewrite get_registry_bound with (l := l) by exact E1.
  repeat split;
    (eapply invoke_lookup_found;
     [simpl; apply list_lookup_insert_eq; exact Lt | reflexivity | reflexivity]).
Qed.

Lemma X16_witness :
  let w := exec_all [SGetAuditorAgent; SMethod 0 (CInitialize env_fixer_raises)]
             (module_loaded fresh_sys) in
  let out := invoke 0 (initialize env_ok) (snd (get_registry w)) in
  fst out = Some (Ok tt) /\
  get_auditor_agent (snd out) = (Some (Ok (Some (mk_agent Auditor 1))), snd out) /\
  get_fixer_agent (snd out) = (Some (Ok (Some (mk_agent Fixer 2))), snd out) /\
  get_judge_agent (snd out) = (Some (Ok (Some (mk_agent Judge 3))), snd out).
Proof.
  apply (X16_initialize_through_get_registry_serves_the_accessors
           [SGetAuditorAgent; SMethod 0 (CInitialize env_fixer_raises)]
           fresh_sys env_ok); try reflexivity.
  intros r E. injection E as <-. reflexivity.
Defined.
